(** * pepe-tracker: a shallow embedding of [server.js]

  The development follows the layout of the server:
  - [JSNum]      JavaScript numbers (IEEE 754 binary64 doubles);
  - [Inferrer]   [parseSwapFromTransaction], the balance-delta trade inferrer;
  - [Retry]      [withRetry], the 429 back-off wrapper;
  - [Hub]        [broadcastTrade] and the trade-history buffer;
  - [Holders]    [readU64LE] and [getToken2022HoldersCached];
  - [Backfill]   the per-transaction loop of [fetchHistoricalTrades].

  The models come first, the properties of each component afterwards. *)

From Stdlib Require Import ZArith String List Bool Lia.
From Stdlib Require Import Floats.SpecFloat.
From stdpp Require Import base option list gmap strings.

Local Open Scope string_scope.
Local Open Scope Z_scope.

(* ===================================================================== *)
(** ** JavaScript numbers *)
(* ===================================================================== *)

(** A JavaScript [number] is an IEEE 754 binary64 value.  [spec_float] is the
  standard library's executable specification of such values; the
  operations below are its operations at precision 53 and maximal exponent
  1024, rounding to nearest, ties to even, exactly as [+], [-], [*], [/],
  [Math.abs], [<] and [===] behave on doubles. *)
Module JSNum.

Definition prec : Z := 53.
Definition emax : Z := 1024.

Definition num : Type := spec_float.

Definition add : num -> num -> num := SFadd prec emax.
Definition sub : num -> num -> num := SFsub prec emax.
Definition mul : num -> num -> num := SFmul prec emax.
Definition div : num -> num -> num := SFdiv prec emax.
Definition abs : num -> num := SFabs.

(** [a < b] and [a === b] on numbers: false whenever an operand is NaN,
    and [+0 === -0]. *)
Definition ltb : num -> num -> bool := SFltb.
Definition eqb : num -> num -> bool := SFeqb.

(** The double denoted by an integer literal. *)
Definition ofZ (z : Z) : num := binary_normalize prec emax z 0 false.

Definition zero : num := S754_zero false.

(** Truthiness of a number: everything but [0], [-0] and [NaN]. *)
Definition truthy (x : num) : bool :=
  match x with
  | S754_zero _ | S754_nan => false
  | _ => true
  end.

(** The double written [0.005]: 0x3F747AE147AE147B. *)
Definition lit_0_005 : num := S754_finite false 5764607523034235 (-60).

(** *** Counters

    A counter such as [tradeIdCounter] is a number that holds an integer.
    It is kept as that integer, with the rounding of binary64 written
    out: [roundInt x] is the double nearest to the integer [x] (53
    significant bits, ties to even; magnitudes below 2^1024), and [c++]
    stores [roundInt (c + 1)].  Up to 2^53 the sum is exact; at 2^53 the
    counter stays where it is. *)
Definition roundInt (x : Z) : Z :=
  let digits := Z.log2 (Z.abs x) + 1 in
  if digits <=? prec then x
  else
    let shift := digits - prec in
    let q := Z.abs x / 2 ^ shift in
    let r := Z.abs x mod 2 ^ shift in
    let half := 2 ^ (shift - 1) in
    let q' := if r <? half then q
              else if half <? r then q + 1
              else if Z.even q then q else q + 1 in
    Z.sgn x * (q' * 2 ^ shift).

Definition increment (c : Z) : Z := roundInt (c + 1).

Definition MAX_EXACT : Z := 2 ^ 53.

End JSNum.

(* ===================================================================== *)
(** ** The balance-delta trade inferrer *)
(* ===================================================================== *)

Module Inferrer.
Import JSNum.

Definition XNT_MINT : string := "So11111111111111111111111111111111111111112".
Definition PEPE_MINT : string := "81LkybSBLvXYMTF6azXohUWyBvDGUXznm4yiXPkYkDTJ".

(** *** The parsed transaction, as the RPC client hands it over.
    A field that may be missing ([undefined]) or [null] is an [option]. *)

Record UiTokenAmount := { uiAmount : option num }.

Record TokenBalance := {
  accountIndex : nat;
  mint : string;
  owner : option string;
  uiTokenAmount : option UiTokenAmount
}.

(** An entry of [message.accountKeys], by the branch of the address
    extraction that applies to it. *)
Inductive AccountKey :=
| KeyString (s : string)      (* typeof k === "string" *)
| KeyParsed (pubkey : string) (* k.pubkey is set: k.pubkey.toString() *)
| KeyBase58 (b58 : string)    (* k.toBase58 is set: k.toBase58() *)
| KeyOther (str : string).    (* anything else: String(k) *)

Record Meta := {
  preTokenBalances : option (list TokenBalance);
  postTokenBalances : option (list TokenBalance);
  preBalances : option (list (option num));
  postBalances : option (list (option num))
}.

Record Message := { accountKeys : option (list AccountKey) }.

Record Transaction := {
  message : option Message;
  signatures : option (list string)
}.

Record Tx := {
  meta : option Meta;
  transaction : option Transaction;
  tx_signatures : option (list string);   (* tx.signatures *)
  blockTime : option num;
  slot : option Z
}.

(** *** The trade record *)

Inductive TradeType := lp_add | lp_remove | buy | sell.

Record Trade := {
  id : Z;
  signature : string;
  trade_type : TradeType;
  token_amount : num;
  native_amount : num;
  price : option num;         (* null for LP events *)
  trader_address : string;
  trader_prefix : string;
  timestamp : num;
  trade_slot : option Z       (* slot *)
}.

(** *** Step 1: the trader *)

Definition keyAddress (k : AccountKey) : string :=
  match k with
  | KeyString s => s
  | KeyParsed p => p
  | KeyBase58 b => b
  | KeyOther s => s
  end.

(** [tx.transaction.message.accountKeys]; [None] when the access throws. *)
Definition messageAccountKeys (tx : Tx) : option (option (list AccountKey)) :=
  t ← transaction tx; m ← message t; Some (accountKeys m).

(** The first [try] block: a throwing access leaves ["Unknown"]; a missing
    first key goes through [String(undefined)]. *)
Definition traderAddressOf (tx : Tx) : string :=
  match messageAccountKeys tx with
  | None => "Unknown"
  | Some None => "undefined"
  | Some (Some keys) =>
      match keys with
      | [] => "undefined"
      | firstKey :: _ => keyAddress firstKey
      end
  end.

(** *** Step 2: trader-owned SPL deltas *)

(** [new Map()] filled by [postByIndex.set(p.accountIndex, p)]. *)
Definition postByIndex (postToken : list TokenBalance) : gmap nat TokenBalance :=
  foldl (fun m p => <[accountIndex p := p]> m) ∅ postToken.

(** [a || b] on optional strings: the empty string is falsy. *)
Definition strOr (a b : option string) : option string :=
  match a with
  | Some s => if String.eqb s "" then b else a
  | None => b
  end.

Definition strTruthy (a : option string) : bool :=
  match a with
  | Some s => negb (String.eqb s "")
  | None => false
  end.

(** [b.uiTokenAmount?.uiAmount ?? 0] *)
Definition uiAmountOr0 (b : TokenBalance) : num :=
  match uiTokenAmount b with
  | Some u => match uiAmount u with Some a => a | None => zero end
  | None => zero
  end.

(** The running pair [(pepeChange, xntTokenChange)]. *)
Definition Deltas : Type := num * num.

(** One iteration of [for (const pre of preToken)]. *)
Definition deltaStep (traderAddress : string) (pbi : gmap nat TokenBalance)
    (acc : Deltas) (pre : TokenBalance) : Deltas :=
  match pbi !! accountIndex pre with
  | None => acc                                   (* if (!post) continue *)
  | Some post =>
      let owner := strOr (owner pre) (owner post) in
      if negb (strTruthy owner) then acc
      else if negb (bool_decide (owner = Some traderAddress)) then acc
      else
        let preAmt := uiAmountOr0 pre in
        let postAmt := uiAmountOr0 post in
        let change := sub postAmt preAmt in
        let pepeChange :=
          if String.eqb (mint pre) PEPE_MINT then add (fst acc) change else fst acc in
        let xntTokenChange :=
          if String.eqb (mint pre) XNT_MINT then add (snd acc) change else snd acc in
        (pepeChange, xntTokenChange)
  end.

Definition tokenDeltas (traderAddress : string)
    (preToken postToken : list TokenBalance) : Deltas :=
  foldl (deltaStep traderAddress (postByIndex postToken)) (zero, zero) preToken.

(** *** Step 3: the native lamport fallback *)

(** The search loop for the trader's index; [None] stands for [-1]. *)
Fixpoint findTraderIndex (keys : list AccountKey) (traderAddress : string)
    (i : nat) : option nat :=
  match keys with
  | [] => None
  | k :: rest =>
      if String.eqb (keyAddress k) traderAddress then Some i
      else findTraderIndex rest traderAddress (S i)
  end.

(** [arr[i] != null] then the value. *)
Definition lamportsAt (arr : list (option num)) (i : nat) : option num :=
  mjoin (arr !! i).

Definition LAMPORTS_PER_XNT : num := ofZ 1000000000.   (* 1e9 *)

(** The second [try] block; every throwing access leaves [0]. *)
Definition xntNativeChangeOf (tx : Tx) (m : Meta) (traderAddress : string) : num :=
  match messageAccountKeys tx with
  | Some (Some keys) =>
      let preLamports := default [] (preBalances m) in
      let postLamports := default [] (postBalances m) in
      match findTraderIndex keys traderAddress 0 with
      | Some traderIndex =>
          match lamportsAt preLamports traderIndex, lamportsAt postLamports traderIndex with
          | Some pre, Some post => div (sub post pre) LAMPORTS_PER_XNT
          | _, _ => zero
          end
      | None => zero
      end
  | _ => zero
  end.

(** *** Step 4: the base-asset delta that is used *)
Definition chooseXntChange (xntTokenChange xntNativeChange : num) : num :=
  if eqb xntTokenChange zero then xntNativeChange else xntTokenChange.

(** *** Step 5: the trade type *)
Definition classify (pepeChange xntChange : num) : option TradeType :=
  if ltb pepeChange zero && ltb xntChange zero then Some lp_add
  else if ltb zero pepeChange && ltb zero xntChange then Some lp_remove
  else if ltb zero pepeChange && ltb xntChange zero then Some buy
  else if ltb pepeChange zero && ltb zero xntChange then Some sell
  else None.

Definition isSwap (t : TradeType) : bool :=
  match t with buy | sell => true | _ => false end.

(** [a?.[0]] on an optional list of strings. *)
Definition firstOf (l : option (list string)) : option string :=
  l ≫= head.

Definition signatureOf (tx : Tx) : string :=
  let inner := transaction tx ≫= fun t => firstOf (signatures t) in
  default "unknown_signature" (strOr (strOr inner (firstOf (tx_signatures tx))) None).

(** [tx.blockTime ? tx.blockTime * 1000 : Date.now()] *)
Definition timestampOf (now : num) (tx : Tx) : num :=
  match blockTime tx with
  | Some bt => if truthy bt then mul bt (ofZ 1000) else now
  | None => now
  end.

(** The values the function has in hand when it reaches step 5. *)
Definition pepeChangeOf (tx : Tx) (m : Meta) : num :=
  fst (tokenDeltas (traderAddressOf tx)
         (default [] (preTokenBalances m)) (default [] (postTokenBalances m))).

Definition xntTokenChangeOf (tx : Tx) (m : Meta) : num :=
  snd (tokenDeltas (traderAddressOf tx)
         (default [] (preTokenBalances m)) (default [] (postTokenBalances m))).

Definition xntChangeOf (tx : Tx) (m : Meta) : num :=
  chooseXntChange (xntTokenChangeOf tx m)
                  (xntNativeChangeOf tx m (traderAddressOf tx)).

(** *** [parseSwapFromTransaction]
    [now] is what [Date.now()] returns, [tradeIdCounter] the global
    counter; the result is the trade (or [null]) and the counter after the
    call, which [tradeIdCounter++] has incremented as a number is.  The
    argument is [None] for a [null] transaction. *)
Definition parseSwapFromTransaction (now : num) (tradeIdCounter : Z)
    (tx : option Tx) : option Trade * Z :=
  match tx with
  | None => (None, tradeIdCounter)
  | Some tx =>
    match meta tx with
    | None => (None, tradeIdCounter)
    | Some m =>
      let traderAddress := traderAddressOf tx in
      let pepeChange := pepeChangeOf tx m in
      if eqb pepeChange zero then (None, tradeIdCounter)
      else
        let xntChange := xntChangeOf tx m in
        if eqb xntChange zero then (None, tradeIdCounter)
        else
          match classify pepeChange xntChange with
          | None => (None, tradeIdCounter)
          | Some tradeType =>
              let pepeAbs := abs pepeChange in
              let xntAbs := abs xntChange in
              (Some {| id := tradeIdCounter;
                       signature := signatureOf tx;
                       trade_type := tradeType;
                       token_amount := pepeAbs;
                       native_amount := xntAbs;
                       price := if isSwap tradeType
                                then Some (div xntAbs pepeAbs) else None;
                       trader_address := traderAddress;
                       trader_prefix := substring 0 6 traderAddress;
                       timestamp := timestampOf now tx;
                       trade_slot := slot tx |},
               increment tradeIdCounter)
          end
    end
  end.

(** *** The net trader-owned delta, in the words of the specification:
    "sum the trader-owned balance deltas for the tracked asset across all
    token-balance entries whose pre/post owner equals the trader".  An
    entry is a pre-balance with the post-balance of the same account
    index. *)
Definition ownedBy (traderAddress : string) (pre post : TokenBalance) : bool :=
  let owner := strOr (owner pre) (owner post) in
  strTruthy owner && bool_decide (owner = Some traderAddress).

Definition traderChange (traderAddress asset : string)
    (pbi : gmap nat TokenBalance) (pre : TokenBalance) : option num :=
  post ← pbi !! accountIndex pre;
  if ownedBy traderAddress pre post && String.eqb (mint pre) asset
  then Some (sub (uiAmountOr0 post) (uiAmountOr0 pre))
  else None.

Definition spec_netTraderDelta (traderAddress asset : string)
    (preToken postToken : list TokenBalance) : num :=
  foldl add zero (omap (traderChange traderAddress asset (postByIndex postToken)) preToken).

End Inferrer.

(* ===================================================================== *)
(** ** The retry wrapper *)
(* ===================================================================== *)

Module Retry.

(** A thrown value: its [message] property, if any, and what [String(e)]
    gives. *)
Record JSError := { message : option string; asString : string }.

(** How an awaited promise settles. *)
Inductive Outcome (A : Type) :=
| Resolved (a : A)
| Rejected (e : JSError).
Arguments Resolved {A} a.
Arguments Rejected {A} e.

(** [String(e?.message || e)] *)
Definition errorText (e : JSError) : string :=
  match message e with
  | Some m => if String.eqb m "" then asString e else m
  | None => asString e
  end.

(** [s.includes(pat)] *)
Definition includes (s pat : string) : bool :=
  match String.index 0 pat s with Some _ => true | None => false end.

Definition is429 (e : JSError) : bool :=
  let msg := errorText e in
  includes msg "429" || includes msg "Too Many Requests".

(** The options argument [{ retries = 6, baseDelayMs = 500 } = {}]. *)
Record Options := { retries : option Z; baseDelayMs : option Z }.

Definition retriesOf (o : option Options) : Z := default 6 (o ≫= retries).
Definition baseDelayMsOf (o : option Options) : Z := default 500 (o ≫= baseDelayMs).

(** What one call of [withRetry] does: how it settles, the delays it
    slept (in order), and how often it invoked [fn]. *)
Record Run (A : Type) := {
  settled : Outcome A;
  delays : list Z;
  calls : nat
}.
Arguments settled {A} r.
Arguments delays {A} r.
Arguments calls {A} r.

Section WithRetry.
Context {A : Type}.
(** [fn k] is how the [k]-th invocation (from 0) of [fn] settles. *)
Variable fn : nat -> Outcome A.
Variable opts : option Options.

(** The [while (true)] loop, from the iteration whose counter is
    [attempt]; [fuel] bounds the number of iterations. *)
Fixpoint retryLoop (fuel : nat) (attempt : nat) : option (Run A) :=
  match fuel with
  | O => None
  | S fuel' =>
      match fn attempt with
      | Resolved a => Some {| settled := Resolved a; delays := []; calls := 1 |}
      | Rejected e =>
          if negb (is429 e) || (retriesOf opts <=? Z.of_nat attempt)
          then Some {| settled := Rejected e; delays := []; calls := 1 |}
          else
            let delay := baseDelayMsOf opts * 2 ^ Z.of_nat attempt in
            r ← retryLoop fuel' (S attempt);
            Some {| settled := settled r;
                    delays := delay :: delays r;
                    calls := S (calls r) |}
      end
  end.

Definition withRetry : option (Run A) :=
  retryLoop (S (Z.to_nat (retriesOf opts))) 0.
End WithRetry.

End Retry.

(* ===================================================================== *)
(** ** The broadcast hub *)
(* ===================================================================== *)

Module Hub.
Import Inferrer.

(** A subscriber is the response object of its stream; it is known here
    by a number. *)
Definition Client : Type := nat.

Inductive SseEvent :=
| EvHistory (trades : list Trade)
| EvTrade (trade : Trade).

(** The globals [clients] and [tradeHistory]. *)
Record State := {
  clients : list Client;
  tradeHistory : list Trade
}.

Definition initial : State := {| clients := []; tradeHistory := [] |}.

Definition CAPACITY : nat := Z.to_nat 8000.

(** [tradeHistory.unshift(trade)], then the [slice(0, 8000)] when the
    length is above 8000. *)
Definition pushHistory (history : list Trade) (trade : Trade) : list Trade :=
  let history := trade :: history in
  if (CAPACITY <? length history)%nat then take CAPACITY history else history.

(** [broadcastTrade]: the new state and the events written, one per
    registered client, in registration order (a failing write is
    swallowed). *)
Definition broadcastTrade (st : State) (trade : Trade)
    : State * list (Client * SseEvent) :=
  ({| clients := clients st;
      tradeHistory := pushHistory (tradeHistory st) trade |},
   map (fun client => (client, EvTrade trade)) (clients st)).

Definition publish (st : State) (trade : Trade) : State :=
  fst (broadcastTrade st trade).

Definition publishAll (st : State) (trades : list Trade) : State :=
  foldl publish st trades.

End Hub.

(* ===================================================================== *)
(** ** The holder-count aggregator *)
(* ===================================================================== *)

Module Holders.

Record HoldersCache := {
  mint : option string;          (* null before the first fill *)
  holders : nat;
  totalTokenAccounts : nat;
  zeroBalanceAccounts : nat;
  updatedAt : Z
}.

Definition initialCache : HoldersCache :=
  {| mint := None; holders := 0; totalTokenAccounts := 0;
     zeroBalanceAccounts := 0; updatedAt := 0 |}.

Definition HOLDERS_CACHE_TTL_MS : Z := 10 * 60 * 1000.

(** [readU64LE]: [None] when one of [buf[0..7]] is missing, where
    [BigInt(undefined)] throws. *)
Fixpoint readU64LE_from (buf : list Byte.byte) (i : nat) (count : nat) (n : Z) : option Z :=
  match count with
  | O => Some n
  | S count' =>
      match buf !! i with
      | Some b =>
          readU64LE_from buf (S i) count'
            (Z.lor n (Z.shiftl (Z.of_N (Byte.to_N b)) (8 * Z.of_nat i)))
      | None => None
      end
  end.

Definition readU64LE (buf : list Byte.byte) : option Z :=
  readU64LE_from buf 0 8 0.

(** The RPC boundary as this function uses it. *)
Inductive Failure :=
| InvalidPublicKey            (* new PublicKey(mintStr) throws *)
| RpcFailure                  (* an RPC call rejects *)
| MintNotFound                (* "Mint account not found on this RPC/network." *)
| BadAccountData.             (* readU64LE throws *)

Record Rpc := {
  isPublicKey : string -> bool;
  (** [getAccountInfo]: [None] rejects, [Some false] resolves to null. *)
  getAccountInfo : string -> option bool;
  (** [getProgramAccounts] with the mint filter and the 8-byte slice:
      the data of each account, or [None] when it rejects. *)
  getProgramAccounts : string -> option (list (list Byte.byte))
}.

Inductive RpcCall :=
| CallGetAccountInfo (mintStr : string)
| CallGetProgramAccounts (mintStr : string).

(** The counting loop: [(holders, zero)]; [None] when a read throws. *)
Fixpoint countHolders (accounts : list (list Byte.byte)) (holders zero : nat)
    : option (nat * nat) :=
  match accounts with
  | [] => Some (holders, zero)
  | acc :: rest =>
      match readU64LE acc with
      | Some amt =>
          if 0 <? amt then countHolders rest (S holders) zero
          else countHolders rest holders (S zero)
      | None => None
      end
  end.

Definition cacheHit (now : Z) (cache : HoldersCache) (mintStr : string) : bool :=
  bool_decide (mint cache = Some mintStr)
  && (now - updatedAt cache <? HOLDERS_CACHE_TTL_MS).

(** [getToken2022HoldersCached]: what the call settles to, the cache
    afterwards, and the RPC calls it made. *)
Definition getToken2022HoldersCached (rpc : Rpc) (now : Z)
    (holdersCache : HoldersCache) (mintStr : string)
    : (Failure + HoldersCache) * HoldersCache * list RpcCall :=
  if cacheHit now holdersCache mintStr then (inr holdersCache, holdersCache, [])
  else if negb (isPublicKey rpc mintStr) then (inl InvalidPublicKey, holdersCache, [])
  else
    match getAccountInfo rpc mintStr with
    | None => (inl RpcFailure, holdersCache, [CallGetAccountInfo mintStr])
    | Some false => (inl MintNotFound, holdersCache, [CallGetAccountInfo mintStr])
    | Some true =>
        let trace := [CallGetAccountInfo mintStr; CallGetProgramAccounts mintStr] in
        match getProgramAccounts rpc mintStr with
        | None => (inl RpcFailure, holdersCache, trace)
        | Some accounts =>
            match countHolders accounts 0 0 with
            | None => (inl BadAccountData, holdersCache, trace)
            | Some (holders, zero) =>
                let fresh := {| mint := Some mintStr;
                                holders := holders;
                                totalTokenAccounts := length accounts;
                                zeroBalanceAccounts := zero;
                                updatedAt := now |} in
                (inr fresh, fresh, trace)
            end
        end
    end.

End Holders.

(* ===================================================================== *)
(** ** The per-transaction loop of the historical backfill *)
(* ===================================================================== *)

Module Backfill.
Import JSNum Inferrer.

(** What the loop body meets for one signature: how the awaited
    [withRetry(() => connection.getParsedTransaction(...))] settles
    ([Resolved None] is a null transaction), and what [Date.now()]
    returns inside the inferrer. *)
Record Fetched := {
  fetched : Retry.Outcome (option Tx);
  nowAt : num
}.

Inductive Event :=
| EvLog (trade : Trade)       (* one of the first five trades is printed *)
| EvSleep (ms : Z).           (* await sleep(ms) *)

Record LoopState := {
  processed : Z;
  parsedTrades : list Trade;
  tradeIdCounter : Z;
  trace : list Event
}.

Definition start (tradeIdCounter : Z) : LoopState :=
  {| processed := 0; parsedTrades := []; tradeIdCounter := tradeIdCounter;
     trace := [] |}.

(** One iteration of [for (const sig of signatures)]. *)
Definition loopBody (st : LoopState) (f : Fetched) : LoopState :=
  match fetched f with
  | Retry.Rejected _ => st                         (* catch: ignored *)
  | Retry.Resolved None => st                      (* if (!tx) continue *)
  | Retry.Resolved (Some tx) =>
      match parseSwapFromTransaction (nowAt f) (tradeIdCounter st) (Some tx) with
      | (None, counter) =>                          (* if (!trade) continue *)
          {| processed := processed st; parsedTrades := parsedTrades st;
             tradeIdCounter := counter; trace := trace st |}
      | (Some trade, counter) =>
          let processed := processed st + 1 in
          let log := if processed <=? 5 then [EvLog trade] else [] in
          let throttle := if processed mod 25 =? 0 then [EvSleep 120] else [] in
          {| processed := processed;
             parsedTrades := parsedTrades st ++ [trade];
             tradeIdCounter := counter;
             trace := trace st ++ log ++ throttle |}
      end
  end.

Definition processSignatures (tradeIdCounter : Z) (txs : list Fetched) : LoopState :=
  foldl loopBody (start tradeIdCounter) txs.

Definition sleeps (tr : list Event) : list Z :=
  omap (fun e => match e with EvSleep ms => Some ms | EvLog _ => None end) tr.


(** What links the counter, the trades kept and the pauses taken. *)
Definition cadence (st : LoopState) : Prop :=
  processed st = Z.of_nat (length (parsedTrades st)) /\
  sleeps (trace st) = repeat 120 (Z.to_nat (processed st / 25)).

End Backfill.

Module BackfillSpec.
Import JSNum Inferrer Backfill.

(** The trades the inferrer yields over the transactions the loop goes
    through, in order: a fetch that failed and a null transaction yield
    nothing, every other transaction is handed to the inferrer with the id
    counter as the calls before it left it. *)
Fixpoint inferred (tradeIdCounter : Z) (txs : list Fetched) : list Trade :=
  match txs with
  | [] => []
  | f :: rest =>
      match fetched f with
      | Retry.Resolved (Some tx) =>
          match parseSwapFromTransaction (nowAt f) tradeIdCounter (Some tx) with
          | (Some trade, counter) => trade :: inferred counter rest
          | (None, counter) => inferred counter rest
          end
      | _ => inferred tradeIdCounter rest
      end
  end.

End BackfillSpec.

(* ===================================================================== *)
(** ** Sample inputs *)
(* ===================================================================== *)

Module Samples.
Import JSNum Inferrer.

Definition trader : string := "Trader1111111111111111111111111111111111111".
Definition pool : string := "VmZfZnHzFTKSf19ZvAxa4duzChve3JYHVCPq1FvezhN".

Definition balance (i : nat) (mintId : string) (ownerId : string) (amount : Z)
    : TokenBalance :=
  {| accountIndex := i; mint := mintId; owner := Some ownerId;
     uiTokenAmount := Some {| uiAmount := Some (ofZ amount) |} |}.

Definition mkTx (pre post : list TokenBalance) (preLamports postLamports : list Z) : Tx :=
  {| meta := Some {| preTokenBalances := Some pre;
                     postTokenBalances := Some post;
                     preBalances := Some (map (fun z => Some (ofZ z)) preLamports);
                     postBalances := Some (map (fun z => Some (ofZ z)) postLamports) |};
     transaction := Some {| message := Some {| accountKeys :=
                              Some [KeyParsed trader; KeyParsed pool] |};
                            signatures := Some ["5sig"] |};
     tx_signatures := None;
     blockTime := Some (ofZ 1700000000);
     slot := Some 42 |}.

Definition metaOf (tx : Tx) : Meta :=
  default {| preTokenBalances := None; postTokenBalances := None;
             preBalances := None; postBalances := None |} (meta tx).

(** The trader's PEPE goes 1000 -> 1200, the trader's lamports
    5_000_000_000 -> 4_000_000_000, no wrapped-XNT entry. *)
Definition buyTx : Tx :=
  mkTx [balance 1 PEPE_MINT trader 1000] [balance 1 PEPE_MINT trader 1200]
       [5000000000; 7] [4000000000; 7].

(** PEPE +200 and wrapped XNT +50 for the trader. *)
Definition lpRemoveTx : Tx :=
  mkTx [balance 1 PEPE_MINT trader 1000; balance 2 XNT_MINT trader 10]
       [balance 1 PEPE_MINT trader 1200; balance 2 XNT_MINT trader 60]
       [5000000000; 7] [4999995000; 7].

(** PEPE untouched for the trader, lamports move. *)
Definition noPepeTx : Tx :=
  mkTx [balance 1 PEPE_MINT trader 1000] [balance 1 PEPE_MINT trader 1000]
       [5000000000; 7] [4000000000; 7].

(** PEPE moves, neither wrapped XNT nor lamports do. *)
Definition noXntTx : Tx :=
  mkTx [balance 1 PEPE_MINT trader 1000] [balance 1 PEPE_MINT trader 1200]
       [5000000000; 7] [5000000000; 7].

End Samples.

Module RetrySamples.
Import Retry.

Definition tooMany : JSError :=
  {| message := Some "429 Too Many Requests"; asString := "Error: 429 Too Many Requests" |}.
Definition notFound : JSError :=
  {| message := Some "Transaction not found"; asString := "Error: Transaction not found" |}.

(** Two rate-limit failures, then a value. *)
Definition flaky (k : nat) : Outcome nat :=
  match k with
  | 0%nat | 1%nat => Rejected tooMany
  | _ => Resolved 7%nat
  end.

Definition alwaysLimited (k : nat) : Outcome nat := Rejected tooMany.
Definition broken (k : nat) : Outcome nat := Rejected notFound.
End RetrySamples.

Module HoldersSamples.
Import Holders.

Definition amount (b0 b2 : Byte.byte) : list Byte.byte :=
  [b0; Byte.x00; b2; Byte.x00; Byte.x00; Byte.x00; Byte.x00; Byte.x00].

(** Three token accounts of the mint: balances 1, 0 and 65536. *)
Definition threeAccounts : Rpc :=
  {| isPublicKey := fun _ => true;
     getAccountInfo := fun _ => Some true;
     getProgramAccounts := fun _ =>
       Some [amount Byte.x01 Byte.x00; amount Byte.x00 Byte.x00;
             amount Byte.x00 Byte.x01] |}.

Definition pepe : string := "81LkybSBLvXYMTF6azXohUWyBvDGUXznm4yiXPkYkDTJ".
Definition other : string := "So11111111111111111111111111111111111111112".
End HoldersSamples.

Module BackfillSamples.
Import JSNum Inferrer Backfill.

Definition fetchedTx (tx : Tx) : Fetched :=
  {| fetched := Retry.Resolved (Some tx); nowAt := zero |}.

(** 25 transactions, fetched and parsed, none of them a trade. *)
Definition quietPage : list Fetched := repeat (fetchedTx Samples.noPepeTx) 25.

(** 25 buys. *)
Definition busyPage : list Fetched := repeat (fetchedTx Samples.buyTx) 25.
End BackfillSamples.

Module StreamSamples.
Import JSNum Inferrer.

Definition tradeNo (n : Z) : Trade :=
  {| id := n; signature := "5sig"; trade_type := buy;
     token_amount := ofZ 200; native_amount := ofZ 1;
     price := Some lit_0_005;
     trader_address := Samples.trader; trader_prefix := "Trader";
     timestamp := ofZ 1700000000000; trade_slot := Some 42 |}.

End StreamSamples.

(* ===================================================================== *)
(** ** The stream endpoint: subscribing and closing *)
(* ===================================================================== *)

Module Stream.
Import Inferrer Hub.

(** [tradeHistory.slice(0, 2000)] *)
Definition REPLAY : nat := Z.to_nat 2000.

(** The handler of [/api/trades-stream]: the history event is written
    first, then the response is pushed onto [clients].  The keep-alive
    timer writes comment lines, which are no events, and is left out. *)
Definition subscribe (st : State) (res : Client) : State * list (Client * SseEvent) :=
  ({| clients := (clients st ++ [res])%list; tradeHistory := tradeHistory st |},
   [(res, EvHistory (take REPLAY (tradeHistory st)))]).

(** [req.on("close")]: [clients = clients.filter((c) => c !== res)]. *)
Definition close (st : State) (res : Client) : State :=
  {| clients := filter (fun c => c <> res) (clients st);
     tradeHistory := tradeHistory st |}.

(** What happens to the hub, one event-loop turn at a time. *)
Inductive Op :=
| Subscribe (res : Client)
| Close (res : Client)
| Publish (trade : Trade).

Definition step (st : State) (op : Op) : State * list (Client * SseEvent) :=
  match op with
  | Subscribe res => subscribe st res
  | Close res => (close st res, [])
  | Publish trade => broadcastTrade st trade
  end.

(** The state after the operations and everything written, in order. *)
Fixpoint run (st : State) (ops : list Op) : State * list (Client * SseEvent) :=
  match ops with
  | [] => (st, [])
  | op :: ops =>
      let '(st1, written1) := step st op in
      let '(st2, written2) := run st1 ops in
      (st2, (written1 ++ written2)%list)
  end.

(** The events written to one response. *)
Definition received (res : Client) (written : list (Client * SseEvent)) : list SseEvent :=
  omap (fun w => if decide (fst w = res) then Some (snd w) else None) written.

Definition published (ops : list Op) : list Trade :=
  omap (fun op => match op with Publish trade => Some trade | _ => None end) ops.

Definition concerns (res : Client) (op : Op) : bool :=
  match op with
  | Subscribe c | Close c => bool_decide (c = res)
  | Publish _ => false
  end.

End Stream.

(* ===================================================================== *)
(** ** The live listener *)
(* ===================================================================== *)

Module Live.
Import Inferrer Hub.

(** The globals the [onLogs] callback works on. *)
Record Server := {
  hub : State;
  tradeIdCounter : Z
}.

(** The callback for one notification: [f] is how the awaited
    [withRetry(() => connection.getParsedTransaction(...))] settles and
    what [Date.now()] returns in the inferrer.  A rejection is logged, a
    null transaction or a null trade ends the callback. *)
Definition onLogs (sv : Server) (f : Backfill.Fetched) : Server * list (Client * SseEvent) :=
  match Backfill.fetched f with
  | Retry.Rejected _ => (sv, [])
  | Retry.Resolved None => (sv, [])
  | Retry.Resolved (Some tx) =>
      match parseSwapFromTransaction (Backfill.nowAt f) (tradeIdCounter sv) (Some tx) with
      | (None, counter) => ({| hub := hub sv; tradeIdCounter := counter |}, [])
      | (Some trade, counter) =>
          let '(hub', written) := broadcastTrade (hub sv) trade in
          ({| hub := hub'; tradeIdCounter := counter |}, written)
      end
  end.

Definition listen (sv : Server) (fs : list Backfill.Fetched) : Server :=
  foldl (fun sv f => fst (onLogs sv f)) sv fs.

(** Ids in the history are pairwise distinct and below the counter. *)
Definition idsFresh (sv : Server) : Prop :=
  NoDup (map id (tradeHistory (hub sv))) /\
  Forall (fun t => id t < tradeIdCounter sv) (tradeHistory (hub sv)).

End Live.

(* ===================================================================== *)
(** ** The signature paging loop of the historical backfill *)
(* ===================================================================== *)

Module Paging.

Definition MAX_RPC_LIMIT : Z := 1000.

(** The options of one [getSignaturesForAddress] call: [limit], and
    [before] when the cursor is truthy. *)
Record Request := {
  limit : Z;
  before : option string
}.

(** The global loop state: the signatures collected, the cursor
    ([None] is [undefined]) and the requests made so far. *)
Record LoopState := {
  signatures : list string;
  cursor : option string;
  requests : list Request
}.

Definition start : LoopState :=
  {| signatures := []; cursor := None; requests := [] |}.

Section Loop.
(** [rpc k req] is how the awaited [withRetry(...)] of the [k]-th page
    request settles: a rejection, [null], or the page (the [signature]
    field of each entry). *)
Variable rpc : nat -> Request -> Retry.Outcome (option (list string)).
(** The target count, a whole number. *)
Variable totalLimit : Z.

(** The [while (signatures.length < totalLimit)] loop; [inl e] when the
    function rejects with [e]. *)
Fixpoint pageLoop (fuel : nat) (st : LoopState) : option (Retry.JSError + LoopState) :=
  match fuel with
  | O => None
  | S fuel' =>
      if Z.of_nat (length (signatures st)) <? totalLimit then
        let remaining := totalLimit - Z.of_nat (length (signatures st)) in
        let pageLimit := Z.min MAX_RPC_LIMIT remaining in
        let req := {| limit := pageLimit;
                      before := if Inferrer.strTruthy (cursor st) then cursor st else None |} in
        let requests' := (requests st ++ [req])%list in
        match rpc (length (requests st)) req with
        | Retry.Rejected e => Some (inl e)
        | Retry.Resolved None =>
            Some (inr {| signatures := signatures st; cursor := cursor st;
                         requests := requests' |})
        | Retry.Resolved (Some page) =>
            match last page with
            | None =>                                   (* page.length === 0 *)
                Some (inr {| signatures := signatures st; cursor := cursor st;
                             requests := requests' |})
            | Some lastSig =>
                let st' := {| signatures := (signatures st ++ page)%list;
                              cursor := Some lastSig;
                              requests := requests' |} in
                if Z.of_nat (length page) <? pageLimit then Some (inr st')
                else pageLoop fuel' st'
            end
        end
      else Some (inr st)
  end.

Definition collectSignatures : option (Retry.JSError + LoopState) :=
  pageLoop (S (Z.to_nat totalLimit)) start.
End Loop.

End Paging.

(* ===================================================================== *)
(** ** The [/api/holders] route *)
(* ===================================================================== *)

Module HoldersRoute.
Import Holders.

Inductive Response :=
| Success (mint : string) (holders totalTokenAccounts zeroBalanceAccounts : nat)
          (cached : bool) (updatedAt : Z)
| Failure500 (f : Failure).

(** [String(req.query.mint || PEPE_MINT)] for a query parameter that is a
    string or absent. *)
Definition mintParam (q : option string) : string :=
  match q with
  | Some s => if String.eqb s "" then Inferrer.PEPE_MINT else s
  | None => Inferrer.PEPE_MINT
  end.

(** The handler: [now] is [Date.now()] inside the aggregator, [later] the
    [Date.now()] taken when the response is built. *)
Definition handle (rpc : Rpc) (now later : Z) (holdersCache : HoldersCache)
    (q : option string) : Response * HoldersCache :=
  let mint := mintParam q in
  match getToken2022HoldersCached rpc now holdersCache mint with
  | (inr data, cache', _) =>
      (Success mint (holders data) (totalTokenAccounts data)
         (zeroBalanceAccounts data)
         (later - updatedAt data <? HOLDERS_CACHE_TTL_MS) (updatedAt data),
       cache')
  | (inl f, cache', _) => (Failure500 f, cache')
  end.

End HoldersRoute.

Module LittleEndian.

(** The number a byte sequence denotes when read little-endian:
    [b0 + 256 * (b1 + 256 * (...))]. *)
Fixpoint leValue (bytes : list Byte.byte) : Z :=
  match bytes with
  | [] => 0
  | b :: rest => Z.of_N (Byte.to_N b) + 256 * leValue rest
  end.

End LittleEndian.

Module PagingSpec.
Import Paging.



(** The RPC node never returns more entries than the request asks for. *)
Definition obedient (rpc : nat -> Request -> Retry.Outcome (option (list string))) : Prop :=
  forall k req page,
    rpc k req = Retry.Resolved (Some page) -> Z.of_nat (length page) <= limit req.

End PagingSpec.

Module PagingSamples.
Import Paging.

(** A node with 1500 signatures for the pool: full pages while they last. *)
Definition node (k : nat) (req : Request) : Retry.Outcome (option (list string)) :=
  if limit req <? 0 then Retry.Resolved None
  else match k with
       | 0%nat => Retry.Resolved (Some (repeat "sigA" (Z.to_nat (limit req))))
       | 1%nat => Retry.Resolved (Some (repeat "sigB" (Z.to_nat (Z.min 500 (limit req)))))
       | _ => Retry.Resolved (Some [])
       end.

End PagingSamples.

(* ===================================================================== *)
(** ** Properties of the inferrer *)
(* ===================================================================== *)

Section NumberFacts.
Import JSNum.

Lemma ltb_zero_exclusive (x : num) :
  ltb x zero = true -> ltb zero x = false.
Proof. by destruct x as [[]|[]| |[] m e]. Qed.

Lemma ltb_nonzero (x : num) :
  ltb x zero = true \/ ltb zero x = true -> eqb x zero = false.
Proof. by destruct x as [[]|[]| |[] m e]; intros [H|H]. Qed.

Lemma abs_positive (x : num) :
  ltb x zero = true \/ ltb zero x = true -> ltb zero (abs x) = true.
Proof. by destruct x as [[]|[]| |[] m e]; intros [H|H]. Qed.

(** The literal [0.005] is a binary64 value, and the one nearest to
    1/200: it is [m * 2^-60] and [|200 * m - 2^60| <= 100], that is, it is
    within half a unit in the last place (2^-61) of 1/200. *)
Lemma lit_0_005_nearest :
  valid_binary prec emax lit_0_005 = true /\
  lit_0_005 = S754_finite false 5764607523034235 (-60) /\
  Z.abs (200 * 5764607523034235 - 2 ^ 60) <= 100.
Proof. split; [reflexivity | split; [reflexivity | vm_compute; discriminate]]. Qed.

(** Below 2^53 the counter moves by exactly one; at 2^53 it is stuck,
    because 2^53 + 1 is a tie that rounds to the even neighbour 2^53. *)
Lemma increment_exact (c : Z) :
  - MAX_EXACT <= c < MAX_EXACT -> increment c = c + 1.
Proof.
  unfold MAX_EXACT, increment. intros Hc.
  destruct (decide (c + 1 = 2 ^ 53)) as [->|Hne]; [by vm_compute|].
  unfold roundInt.
  assert (Hd : Z.log2 (Z.abs (c + 1)) + 1 <= prec).
  { destruct (decide (Z.abs (c + 1) = 0)) as [->|Hnz]; [by vm_compute|].
    assert (Z.log2 (Z.abs (c + 1)) < 53); [|unfold prec; lia].
    apply Z.log2_lt_pow2; lia. }
  apply Z.leb_le in Hd. by rewrite Hd.
Qed.

Lemma increment_stuck : increment MAX_EXACT = MAX_EXACT.
Proof. by vm_compute. Qed.

(** The integer model of [c++] agrees with binary64 addition of 1, here
    on both sides of the points where the rounding sets in. *)
Lemma increment_is_binary64_add :
  Forall (fun c => add (ofZ c) (ofZ 1) = ofZ (increment c))
    [0; 1; 41; 2 ^ 53 - 2; 2 ^ 53 - 1; 2 ^ 53; 2 ^ 53 + 2; 2 ^ 53 + 4;
     2 ^ 54; 2 ^ 54 + 4; 2 ^ 60 + 2 ^ 8; -1; -5; - 2 ^ 53; - 2 ^ 53 - 2;
     - 2 ^ 54 - 4].
Proof. repeat constructor; vm_compute; reflexivity. Qed.

End NumberFacts.

Section InferrerFacts.
Import JSNum Inferrer.

(** The result of the function, once it has a [meta], in terms of the
    values it computes on the way. *)
Lemma parseSwap_unfold now ctr tx m :
  meta tx = Some m ->
  parseSwapFromTransaction now ctr (Some tx) =
    if eqb (pepeChangeOf tx m) zero then (None, ctr)
    else if eqb (xntChangeOf tx m) zero then (None, ctr)
    else match classify (pepeChangeOf tx m) (xntChangeOf tx m) with
         | None => (None, ctr)
         | Some tradeType =>
             (Some {| id := ctr;
                      signature := signatureOf tx;
                      trade_type := tradeType;
                      token_amount := abs (pepeChangeOf tx m);
                      native_amount := abs (xntChangeOf tx m);
                      price := if isSwap tradeType
                               then Some (div (abs (xntChangeOf tx m))
                                              (abs (pepeChangeOf tx m)))
                               else None;
                      trader_address := traderAddressOf tx;
                      trader_prefix := substring 0 6 (traderAddressOf tx);
                      timestamp := timestampOf now tx;
                      trade_slot := slot tx |}, increment ctr)
         end.
Proof. intros Hm. unfold parseSwapFromTransaction. by rewrite Hm. Qed.

(** A trade comes out only through step 5. *)
Lemma parseSwap_Some now ctr tx t ctr' :
  parseSwapFromTransaction now ctr tx = (Some t, ctr') ->
  exists tx0 m tradeType,
    tx = Some tx0 /\ meta tx0 = Some m /\
    eqb (pepeChangeOf tx0 m) zero = false /\
    eqb (xntChangeOf tx0 m) zero = false /\
    classify (pepeChangeOf tx0 m) (xntChangeOf tx0 m) = Some tradeType /\
    trade_type t = tradeType /\
    token_amount t = abs (pepeChangeOf tx0 m) /\
    native_amount t = abs (xntChangeOf tx0 m) /\
    price t = (if isSwap tradeType
               then Some (div (native_amount t) (token_amount t)) else None) /\
    id t = ctr /\ ctr' = increment ctr.
Proof.
  destruct tx as [tx0|]; [|discriminate].
  destruct (meta tx0) as [m|] eqn:Hm; [|by cbn; rewrite Hm].
  rewrite (parseSwap_unfold _ _ _ _ Hm).
  destruct (eqb (pepeChangeOf tx0 m) zero) eqn:Hp; [discriminate|].
  destruct (eqb (xntChangeOf tx0 m) zero) eqn:Hx; [discriminate|].
  destruct (classify _ _) as [ty|] eqn:Hc; [|discriminate].
  intros [= <- <-]. exists tx0, m, ty. cbn. by repeat split.
Qed.

Lemma classify_signs p x ty :
  classify p x = Some ty ->
  (ltb p zero = true \/ ltb zero p = true) /\
  (ltb x zero = true \/ ltb zero x = true).
Proof.
  unfold classify.
  destruct (ltb p zero), (ltb zero p), (ltb x zero), (ltb zero x);
    cbn; intros; try discriminate; auto.
Qed.

(** The loop computes, for each tracked asset, the left-to-right sum of
    the trader's changes. *)
Lemma deltaStep_traderChange trader pbi acc pre :
  deltaStep trader pbi acc pre =
    (match traderChange trader PEPE_MINT pbi pre with
     | Some c => add (fst acc) c | None => fst acc end,
     match traderChange trader XNT_MINT pbi pre with
     | Some c => add (snd acc) c | None => snd acc end).
Proof.
  unfold deltaStep, traderChange, ownedBy.
  destruct (pbi !! accountIndex pre) as [post|]; cbn; [|by destruct acc].
  destruct (strTruthy _); cbn; [|by destruct acc].
  destruct (bool_decide _); cbn; [|by destruct acc].
  by repeat case_match.
Qed.

Lemma foldl_deltaStep trader pbi pre : forall acc,
  foldl (deltaStep trader pbi) acc pre =
    (foldl add (fst acc) (omap (traderChange trader PEPE_MINT pbi) pre),
     foldl add (snd acc) (omap (traderChange trader XNT_MINT pbi) pre)).
Proof.
  induction pre as [|e pre IH]; intros acc; [by destruct acc|].
  cbn [foldl omap list_omap]. rewrite IH, deltaStep_traderChange. cbn [fst snd].
  by destruct (traderChange trader PEPE_MINT pbi e),
             (traderChange trader XNT_MINT pbi e).
Qed.

Lemma tokenDeltas_spec trader pre post :
  tokenDeltas trader pre post =
    (spec_netTraderDelta trader PEPE_MINT pre post,
     spec_netTraderDelta trader XNT_MINT pre post).
Proof. unfold tokenDeltas. by rewrite foldl_deltaStep. Qed.

End InferrerFacts.

Section InferrerClaims.
Import JSNum Inferrer Samples.

(** C1.  A transaction that reaches the classification step (the tracked
    asset delta and the chosen base delta are both nonzero) gets its
    trade type from the sign pair alone: both negative is [lp_add], both
    positive is [lp_remove], asset up and base down is [buy], asset down
    and base up is [sell]; a pair that is none of these gives no trade. *)
Theorem classification_by_sign_pair now ctr tx m :
  meta tx = Some m ->
  eqb (pepeChangeOf tx m) zero = false ->
  eqb (xntChangeOf tx m) zero = false ->
  let assetChange := pepeChangeOf tx m in
  let baseChange := xntChangeOf tx m in
  let result := fst (parseSwapFromTransaction now ctr (Some tx)) in
  (ltb assetChange zero = true -> ltb baseChange zero = true ->
     trade_type <$> result = Some lp_add) /\
  (ltb zero assetChange = true -> ltb zero baseChange = true ->
     trade_type <$> result = Some lp_remove) /\
  (ltb zero assetChange = true -> ltb baseChange zero = true ->
     trade_type <$> result = Some buy) /\
  (ltb assetChange zero = true -> ltb zero baseChange = true ->
     trade_type <$> result = Some sell) /\
  (ltb assetChange zero && ltb baseChange zero = false ->
   ltb zero assetChange && ltb zero baseChange = false ->
   ltb zero assetChange && ltb baseChange zero = false ->
   ltb assetChange zero && ltb zero baseChange = false ->
     result = None).
Proof.
  intros Hm Hp Hx; cbn zeta.
  rewrite (parseSwap_unfold _ _ _ _ Hm), Hp, Hx. unfold classify.
  repeat split.
  - by intros -> ->.
  - intros Ha Hb. rewrite Ha, Hb.
    destruct (ltb (pepeChangeOf tx m) zero) eqn:E; [|done].
    by rewrite (ltb_zero_exclusive _ E) in Ha.
  - intros Ha Hb. rewrite Ha, Hb.
    rewrite (ltb_zero_exclusive _ Hb).
    destruct (ltb (pepeChangeOf tx m) zero) eqn:E; [|by rewrite andb_false_r].
    by rewrite (ltb_zero_exclusive _ E) in Ha.
  - intros Ha Hb. rewrite Ha, Hb.
    rewrite (ltb_zero_exclusive _ Ha).
    destruct (ltb (xntChangeOf tx m) zero) eqn:E; [|done].
    by rewrite (ltb_zero_exclusive _ E) in Hb.
  - by intros -> -> -> ->.
Qed.

Lemma classification_by_sign_pair_witness :
  meta buyTx = Some (metaOf buyTx) /\
  eqb (pepeChangeOf buyTx (metaOf buyTx)) zero = false /\
  eqb (xntChangeOf buyTx (metaOf buyTx)) zero = false /\
  trade_type <$> fst (parseSwapFromTransaction zero 1 (Some buyTx)) = Some buy.
Proof.
  assert (Hm : meta buyTx = Some (metaOf buyTx)) by reflexivity.
  assert (Hp : eqb (pepeChangeOf buyTx (metaOf buyTx)) zero = false)
    by (vm_compute; reflexivity).
  assert (Hx : eqb (xntChangeOf buyTx (metaOf buyTx)) zero = false)
    by (vm_compute; reflexivity).
  split; [exact Hm|]. split; [exact Hp|]. split; [exact Hx|].
  destruct (classification_by_sign_pair zero 1 buyTx (metaOf buyTx) Hm Hp Hx)
    as (_ & _ & Hbuy & _).
  apply Hbuy; vm_compute; reflexivity.
Defined.

(** C2.  When the trader's net delta of the tracked asset (the sum over
    the token-balance entries the trader owns) is exactly zero, the
    inferrer returns no trade, whatever the base-asset deltas are. *)
Theorem zero_asset_delta_no_trade now ctr tx m :
  meta tx = Some m ->
  eqb (spec_netTraderDelta (traderAddressOf tx) PEPE_MINT
         (default [] (preTokenBalances m)) (default [] (postTokenBalances m)))
      zero = true ->
  parseSwapFromTransaction now ctr (Some tx) = (None, ctr).
Proof.
  intros Hm Hz. rewrite (parseSwap_unfold _ _ _ _ Hm).
  unfold pepeChangeOf at 1. rewrite tokenDeltas_spec. cbn [fst].
  by rewrite Hz.
Qed.

Lemma zero_asset_delta_no_trade_witness :
  meta noPepeTx = Some (metaOf noPepeTx) /\
  eqb (xntNativeChangeOf noPepeTx (metaOf noPepeTx) (traderAddressOf noPepeTx))
      zero = false /\
  parseSwapFromTransaction zero 1 (Some noPepeTx) = (None, 1).
Proof.
  split; [reflexivity|]. split; [vm_compute; reflexivity|].
  apply (zero_asset_delta_no_trade zero 1 noPepeTx (metaOf noPepeTx));
    [reflexivity | vm_compute; reflexivity].
Defined.

(** C4.  In every trade the inferrer produces, [price] is set exactly
    when the trade type is [buy] or [sell], and is then
    [native_amount / token_amount]; for [lp_add] and [lp_remove] it is
    null. *)
Theorem price_iff_swap now ctr tx t ctr' :
  parseSwapFromTransaction now ctr tx = (Some t, ctr') ->
  (is_Some (price t) <-> trade_type t = buy \/ trade_type t = sell) /\
  (trade_type t = buy \/ trade_type t = sell ->
     price t = Some (div (native_amount t) (token_amount t))) /\
  (trade_type t = lp_add \/ trade_type t = lp_remove -> price t = None).
Proof.
  intros H. apply parseSwap_Some in H
    as (tx0 & m & ty & _ & _ & _ & _ & _ & Hty & _ & _ & Hprice & _).
  rewrite Hprice, Hty. clear.
  destruct ty; cbn; repeat split; intros; try done;
    try (by eexists); try (by left); try (by right);
    try (by destruct H as [?|?]); by destruct H as [? ?].
Qed.

Lemma price_iff_swap_witness :
  price <$> fst (parseSwapFromTransaction zero 1 (Some buyTx))
    = Some (Some lit_0_005) /\
  price <$> fst (parseSwapFromTransaction zero 1 (Some lpRemoveTx))
    = Some None.
Proof.
  destruct (parseSwapFromTransaction zero 1 (Some buyTx)) as [[t1|] c1] eqn:E1;
    [|vm_compute in E1; discriminate E1].
  destruct (parseSwapFromTransaction zero 1 (Some lpRemoveTx)) as [[t2|] c2] eqn:E2;
    [|vm_compute in E2; discriminate E2].
  destruct (price_iff_swap _ _ _ _ _ E1) as (_ & Hswap & _).
  destruct (price_iff_swap _ _ _ _ _ E2) as (_ & _ & Hlp).
  cbn [fst fmap option_fmap option_map].
  rewrite Hswap, Hlp.
  - vm_compute in E1. injection E1 as <- _. split; reflexivity.
  - vm_compute in E2. injection E2 as <- _. right; reflexivity.
  - vm_compute in E1. injection E1 as <- _. left; reflexivity.
Defined.

(** C5.  In every trade the inferrer produces, [token_amount] and
    [native_amount] are strictly positive: they are the absolute values
    of the two deltas, which are nonzero when the record is built,
    whatever the signs of the deltas. *)
Theorem amounts_strictly_positive now ctr tx t ctr' :
  parseSwapFromTransaction now ctr tx = (Some t, ctr') ->
  ltb zero (token_amount t) = true /\
  ltb zero (native_amount t) = true /\
  exists tx0 m,
    tx = Some tx0 /\ meta tx0 = Some m /\
    token_amount t = abs (pepeChangeOf tx0 m) /\
    native_amount t = abs (xntChangeOf tx0 m) /\
    eqb (pepeChangeOf tx0 m) zero = false /\
    eqb (xntChangeOf tx0 m) zero = false.
Proof.
  intros H. apply parseSwap_Some in H
    as (tx0 & m & ty & -> & Hm & Hp & Hx & Hc & _ & Ht & Hn & _).
  apply classify_signs in Hc as [Hsp Hsx].
  rewrite Ht, Hn. split; [by apply abs_positive|].
  split; [by apply abs_positive|]. by exists tx0, m.
Qed.

Lemma amounts_strictly_positive_witness :
  exists t,
    parseSwapFromTransaction zero 1 (Some buyTx) = (Some t, 2) /\
    ltb zero (token_amount t) = true /\ ltb zero (native_amount t) = true.
Proof.
  destruct (parseSwapFromTransaction zero 1 (Some buyTx)) as [[t|] c] eqn:E;
    [|vm_compute in E; discriminate E].
  exists t.
  destruct (amounts_strictly_positive _ _ _ _ _ E) as (Ht & Hn & _).
  split; [|by split].
  vm_compute in E. injection E as <- <-. vm_compute. reflexivity.
Defined.

End InferrerClaims.

Section TokenBalanceMatching.
Import JSNum Inferrer Samples.

Local Abbreviation fill := (foldl (fun (m : gmap nat TokenBalance) p => <[accountIndex p := p]> m)).

(** Filling two maps that agree at [k] with the same entries keeps them
    in agreement at [k]. *)
Lemma fill_agree (k : nat) (l : list TokenBalance) :
  forall m m' : gmap nat TokenBalance,
    m !! k = m' !! k -> fill m l !! k = fill m' l !! k.
Proof.
  induction l as [|p l IH]; intros m m' H; [done|].
  cbn [foldl]. apply IH.
  destruct (decide (accountIndex p = k)) as [->|Hne].
  - by rewrite !lookup_insert_eq.
  - by rewrite !lookup_insert_ne.
Qed.

Lemma fill_absent (k : nat) (l : list TokenBalance) :
  forall m : gmap nat TokenBalance,
    k ∉ map accountIndex l -> fill m l !! k = m !! k.
Proof.
  induction l as [|p l IH]; intros m H; [done|].
  cbn [foldl]. cbn [map] in H. apply not_elem_of_cons in H as [Hne Hl].
  rewrite (IH _ Hl). by rewrite lookup_insert_ne.
Qed.

Lemma postByIndex_absent (k : nat) (post : list TokenBalance) :
  k ∉ map accountIndex post -> postByIndex post !! k = None.
Proof. intros H. unfold postByIndex. by rewrite (fill_absent _ _ _ H). Qed.

Lemma postByIndex_drop (k : nat) (post1 post2 : list TokenBalance) (q : TokenBalance) :
  accountIndex q ≠ k ->
  postByIndex (post1 ++ q :: post2) !! k = postByIndex (post1 ++ post2) !! k.
Proof.
  intros Hne. unfold postByIndex. rewrite !foldl_app. cbn [foldl].
  apply fill_agree. by rewrite lookup_insert_ne.
Qed.

(** The loop reads the map only at the account indices of the
    pre-balances. *)
Lemma foldl_deltaStep_agree trader (pbi pbi' : gmap nat TokenBalance)
    (pre : list TokenBalance) :
  (forall e, e ∈ pre -> pbi !! accountIndex e = pbi' !! accountIndex e) ->
  forall acc, foldl (deltaStep trader pbi) acc pre
            = foldl (deltaStep trader pbi') acc pre.
Proof.
  induction pre as [|e pre IH]; intros H acc; [done|].
  cbn [foldl].
  assert (deltaStep trader pbi acc e = deltaStep trader pbi' acc e) as ->.
  { unfold deltaStep. by rewrite (H e) by left. }
  apply IH. intros e' He'. apply H. by right.
Qed.

(** C10.  Only an account index present in both lists counts.  A
    pre-balance whose account index has no post-balance, and a
    post-balance whose account index has no pre-balance (a token account
    created in the transaction), leave both the asset delta and the
    SPL-derived base delta as they are without that entry. *)
Theorem unmatched_entries_contribute_nothing trader :
  (forall pre1 e pre2 post,
     accountIndex e ∉ map accountIndex post ->
     tokenDeltas trader (pre1 ++ e :: pre2) post
       = tokenDeltas trader (pre1 ++ pre2) post) /\
  (forall pre post1 q post2,
     accountIndex q ∉ map accountIndex pre ->
     tokenDeltas trader pre (post1 ++ q :: post2)
       = tokenDeltas trader pre (post1 ++ post2)).
Proof.
  split.
  - intros pre1 e pre2 post He. unfold tokenDeltas.
    assert (Hskip : forall acc, deltaStep trader (postByIndex post) acc e = acc).
    { intros acc. unfold deltaStep. by rewrite (postByIndex_absent _ _ He). }
    rewrite !foldl_app. cbn [foldl]. by rewrite Hskip.
  - intros pre post1 q post2 Hq. unfold tokenDeltas.
    apply foldl_deltaStep_agree. intros e He.
    apply postByIndex_drop. intros Heq. apply Hq.
    rewrite Heq. by apply list_elem_of_fmap_2.
Qed.

(** A trader whose only PEPE account is created by the transaction: the
    1200 PEPE received are not seen. *)
Lemma unmatched_entries_contribute_nothing_witness :
  tokenDeltas trader [balance 2 XNT_MINT trader 10]
      ([balance 2 XNT_MINT trader 60] ++ balance 1 PEPE_MINT trader 1200 :: [])
    = (zero, ofZ 50) /\
  tokenDeltas trader ([] ++ balance 1 PEPE_MINT trader 1000 :: [balance 2 XNT_MINT trader 10])
      [balance 2 XNT_MINT trader 60]
    = (zero, ofZ 50).
Proof.
  destruct (unmatched_entries_contribute_nothing trader) as [Hpre Hpost].
  split.
  - rewrite Hpost; [vm_compute; reflexivity|].
    vm_compute. intros H. inversion H as [|? ? ? H']; inversion H'.
  - rewrite Hpre; [vm_compute; reflexivity|].
    vm_compute. intros H. inversion H as [|? ? ? H']; inversion H'.
Defined.

End TokenBalanceMatching.

Section BaseDeltaChoice.
Import JSNum Inferrer Samples.

(** The trader is the first account key, so the search loop stops at
    index 0. *)
Lemma traderIndex_first tx k keys :
  messageAccountKeys tx = Some (Some (k :: keys)) ->
  findTraderIndex (k :: keys) (traderAddressOf tx) 0 = Some 0%nat.
Proof.
  intros H. unfold traderAddressOf. rewrite H. cbn.
  by rewrite String.eqb_refl.
Qed.

Lemma xntNativeChange_first tx m k keys pre post :
  messageAccountKeys tx = Some (Some (k :: keys)) ->
  lamportsAt (default [] (preBalances m)) 0 = Some pre ->
  lamportsAt (default [] (postBalances m)) 0 = Some post ->
  xntNativeChangeOf tx m (traderAddressOf tx)
    = div (sub post pre) (ofZ 1000000000).
Proof.
  intros Hk Hpre Hpost. unfold xntNativeChangeOf.
  rewrite Hk, (traderIndex_first _ _ _ Hk), Hpre, Hpost. reflexivity.
Qed.

(** C3.  The base-asset change is the SPL-token-balance delta unless
    that is exactly zero; only then it is the native delta, the lamport
    difference at the trader's index in the account keys divided by 1e9;
    with both zero there is no trade.  The sample transaction with a
    trader asset delta of +200, a lamport delta of -1000000000 and no SPL
    base entry gives a buy of 200 for 1 at price 0.005. *)
Theorem base_delta_prefers_spl_then_native :
  (forall now ctr tx m,
     meta tx = Some m ->
     let spl := xntTokenChangeOf tx m in
     let native := xntNativeChangeOf tx m (traderAddressOf tx) in
     (eqb spl zero = false -> xntChangeOf tx m = spl) /\
     (eqb spl zero = true -> xntChangeOf tx m = native) /\
     (forall k keys pre post,
        messageAccountKeys tx = Some (Some (k :: keys)) ->
        lamportsAt (default [] (preBalances m)) 0 = Some pre ->
        lamportsAt (default [] (postBalances m)) 0 = Some post ->
        findTraderIndex (k :: keys) (traderAddressOf tx) 0 = Some 0%nat /\
        native = div (sub post pre) (ofZ 1000000000)) /\
     (eqb spl zero = true -> eqb native zero = true ->
        parseSwapFromTransaction now ctr (Some tx) = (None, ctr)) /\
     (forall t ctr',
        parseSwapFromTransaction now ctr (Some tx) = (Some t, ctr') ->
        native_amount t = abs (xntChangeOf tx m))) /\
  (xntTokenChangeOf buyTx (metaOf buyTx) = zero /\
   exists t,
     parseSwapFromTransaction zero 1 (Some buyTx) = (Some t, 2) /\
     trade_type t = buy /\
     token_amount t = ofZ 200 /\
     native_amount t = ofZ 1 /\
     price t = Some lit_0_005).
Proof.
  split.
  - intros now ctr tx m Hm; cbn zeta.
    split; [|split; [|split; [|split]]].
    + intros H. unfold xntChangeOf, chooseXntChange. by rewrite H.
    + intros H. unfold xntChangeOf, chooseXntChange. by rewrite H.
    + intros k keys pre post Hk Hpre Hpost. split.
      * by apply traderIndex_first.
      * by apply xntNativeChange_first with k keys.
    + intros Hs Hn. rewrite (parseSwap_unfold _ _ _ _ Hm).
      assert (eqb (xntChangeOf tx m) zero = true) as ->.
      { unfold xntChangeOf, chooseXntChange. by rewrite Hs. }
      by destruct (eqb (pepeChangeOf tx m) zero).
    + intros t ctr' H. apply parseSwap_Some in H
        as (tx0 & m0 & ty & [= <-] & Hm0 & _ & _ & _ & _ & _ & Hn & _).
      rewrite Hm in Hm0. by injection Hm0 as <-.
  - split; [vm_compute; reflexivity|].
    eexists. split; [vm_compute; reflexivity|].
    cbn [trade_type token_amount native_amount price].
    repeat split; vm_compute; reflexivity.
Qed.

Lemma base_delta_prefers_spl_then_native_witness :
  xntChangeOf lpRemoveTx (metaOf lpRemoveTx) = ofZ 50 /\
  xntChangeOf buyTx (metaOf buyTx) = SFopp (ofZ 1) /\
  parseSwapFromTransaction zero 1 (Some noXntTx) = (None, 1).
Proof.
  destruct base_delta_prefers_spl_then_native as [H _].
  destruct (H zero 1 lpRemoveTx (metaOf lpRemoveTx) eq_refl) as (Hspl & _).
  destruct (H zero 1 buyTx (metaOf buyTx) eq_refl) as (_ & Hnat & _).
  destruct (H zero 1 noXntTx (metaOf noXntTx) eq_refl) as (_ & _ & _ & Hnone & _).
  split; [|split].
  - rewrite Hspl; vm_compute; reflexivity.
  - rewrite Hnat; vm_compute; reflexivity.
  - apply Hnone; vm_compute; reflexivity.
Defined.

End BaseDeltaChoice.

(* ===================================================================== *)
(** ** Properties of the retry wrapper *)
(* ===================================================================== *)

Section RetryFacts.
Import Retry.

(** [includes] is substring search. *)
Lemma includes_spec (s pat : string) :
  pat <> EmptyString ->
  includes s pat = true <-> exists m, substring m (String.length pat) s = pat.
Proof.
  intros Hpat. unfold includes.
  destruct (index 0 pat s) as [m|] eqn:E.
  - split; [intros _|done]. exists m. by apply index_correct1 with 0%nat.
  - split; [done|]. intros [m Hm]. exfalso.
    apply (index_correct3 0 m pat s) in E; [done|done|lia].
Qed.

Context {A : Type}.
Variable fn : nat -> Outcome A.
Variable opts : option Options.

(** The loop ends: one iteration more than the retries that are left is
    enough fuel. *)
Lemma retryLoop_total (fuel attempt : nat) :
  (0 < fuel)%nat ->
  retriesOf opts - Z.of_nat attempt < Z.of_nat fuel ->
  is_Some (retryLoop fn opts fuel attempt).
Proof.
  revert attempt. induction fuel as [|fuel IH]; intros attempt Hpos Hfuel; [lia|].
  cbn [retryLoop]. destruct (fn attempt) as [a|e]; [by eexists|].
  destruct (negb (is429 e) || (retriesOf opts <=? Z.of_nat attempt)) eqn:Estop;
    [by eexists|].
  apply orb_false_iff in Estop as [_ Hlt]. apply Z.leb_gt in Hlt.
  destruct (IH (S attempt)) as [r Hr]; [lia|lia|].
  rewrite Hr. by eexists.
Qed.

(** What a finished run looks like. *)
Lemma retryLoop_run (fuel attempt : nat) (r : Run A) :
  retryLoop fn opts fuel attempt = Some r ->
  settled r = fn (attempt + length (delays r))%nat /\
  calls r = S (length (delays r)) /\
  (forall k, (k < length (delays r))%nat ->
     delays r !! k = Some (baseDelayMsOf opts * 2 ^ Z.of_nat (attempt + k)) /\
     Z.of_nat (attempt + k) < retriesOf opts /\
     exists e, fn (attempt + k)%nat = Rejected e /\ is429 e = true) /\
  (forall e, settled r = Rejected e -> is429 e = true ->
     retriesOf opts <= Z.of_nat (attempt + length (delays r))).
Proof.
  revert attempt r. induction fuel as [|fuel IH]; intros attempt r; [done|].
  cbn [retryLoop]. destruct (fn attempt) as [a|e] eqn:Efn.
  - intros [= <-]. cbn. rewrite Nat.add_0_r.
    split; [done|]. split; [done|]. split; [intros; lia|done].
  - destruct (negb (is429 e) || (retriesOf opts <=? Z.of_nat attempt)) eqn:Estop.
    + intros [= <-]. cbn. rewrite Nat.add_0_r.
      split; [done|]. split; [done|]. split; [intros; lia|].
      intros e' [= <-] H429. rewrite H429 in Estop.
      cbn in Estop. apply Z.leb_le in Estop. lia.
    + apply orb_false_iff in Estop as [H429 Hlt].
      apply negb_false_iff in H429. apply Z.leb_gt in Hlt.
      destruct (retryLoop fn opts fuel (S attempt)) as [r'|] eqn:Er'; [|done].
      intros [= <-]. cbn.
      destruct (IH _ _ Er') as (Hs & Hc & Hd & Hceil).
      split; [by rewrite Hs; f_equal; lia|].
      split; [by rewrite Hc|]. split.
      * intros [|k] Hk.
        -- rewrite Nat.add_0_r. cbn. split; [done|]. split; [lia|]. by exists e.
        -- destruct (Hd k) as (Hdk & Hlim & Hrej); [lia|].
           replace (attempt + S k)%nat with (S attempt + k)%nat by lia.
           by cbn [lookup list_lookup].
      * intros e' He' H'. specialize (Hceil e' He' H'). lia.
Qed.

End RetryFacts.

Section RetryClaims.
Import Retry RetrySamples.

(** C6.  With the default options, [withRetry] always settles; it sleeps
    and calls again only after a failure whose text contains "429" or
    "Too Many Requests"; a failure without them settles the call at once;
    there are at most 6 retries, and a rate-limit failure comes out only
    after all 6; the delay before retry [k] (from 0) is 500 * 2^k ms. *)
Theorem withRetry_default_policy {A : Type} (fn : nat -> Outcome A) :
  exists r,
    withRetry fn None = Some r /\
    settled r = fn (length (delays r)) /\
    calls r = S (length (delays r)) /\
    (length (delays r) <= 6)%nat /\
    (forall k, (k < length (delays r))%nat ->
       delays r !! k = Some (500 * 2 ^ Z.of_nat k) /\
       exists e, fn k = Rejected e /\
         (includes (errorText e) "429"
          || includes (errorText e) "Too Many Requests") = true) /\
    (forall k e, fn k = Rejected e -> is429 e = false ->
       (length (delays r) <= k)%nat) /\
    (forall e, settled r = Rejected e -> is429 e = true ->
       length (delays r) = 6%nat).
Proof.
  destruct (retryLoop_total fn None (S (Z.to_nat (retriesOf None))) 0) as [r Hr];
    [lia | cbn; lia |].
  exists r. split; [exact Hr|].
  destruct (retryLoop_run fn None _ _ _ Hr) as (Hs & Hc & Hd & Hceil).
  cbn [Nat.add] in Hs, Hd, Hceil. change (retriesOf None) with 6 in Hd, Hceil.
  change (baseDelayMsOf None) with 500 in Hd.
  assert (Hlen : (length (delays r) <= 6)%nat).
  { destruct (length (delays r)) as [|n] eqn:En; [lia|].
    destruct (Hd n) as (_ & Hlim & _); lia. }
  repeat split; try done.
  - by destruct (Hd k) as (? & _).
  - destruct (Hd k) as (_ & _ & e & He & H429); [done|]. by exists e.
  - intros k e He H429.
    destruct (decide (k < length (delays r))%nat) as [Hk|Hk]; [|lia].
    destruct (Hd k Hk) as (_ & _ & e' & He' & H429').
    rewrite He in He'. injection He' as <-. congruence.
  - intros e He H429. specialize (Hceil e He H429). lia.
Qed.

Lemma withRetry_default_policy_witness :
  withRetry flaky None
    = Some {| settled := Resolved 7%nat; delays := [500; 1000]; calls := 3 |} /\
  (delays <$> withRetry alwaysLimited None)
    = Some [500; 1000; 2000; 4000; 8000; 16000] /\
  (delays <$> withRetry broken None) = Some [].
Proof.
  destruct (withRetry_default_policy flaky) as (r1 & H1 & _).
  destruct (withRetry_default_policy alwaysLimited) as (r2 & H2 & _).
  destruct (withRetry_default_policy broken) as (r3 & H3 & _).
  rewrite H1, H2, H3.
  vm_compute in H1. injection H1 as <-.
  vm_compute in H2. injection H2 as <-.
  vm_compute in H3. injection H3 as <-.
  repeat split.
Defined.

End RetryClaims.

(* ===================================================================== *)
(** ** Properties of the broadcast hub *)
(* ===================================================================== *)

Section HubFacts.
Import Inferrer Hub.

Lemma CAPACITY_pos : (0 < CAPACITY)%nat.
Proof. unfold CAPACITY. lia. Qed.

(** Both branches of the length test are the first [CAPACITY] entries of
    the extended list. *)
Lemma pushHistory_take (history : list Trade) (trade : Trade) :
  pushHistory history trade = take CAPACITY (trade :: history).
Proof.
  unfold pushHistory.
  destruct (CAPACITY <? length (trade :: history))%nat eqn:E; [done|].
  apply Nat.ltb_ge in E. by rewrite take_ge.
Qed.

Lemma publish_length (st : State) (trade : Trade) :
  (length (tradeHistory (publish st trade)) <= CAPACITY)%nat.
Proof. cbn. rewrite pushHistory_take, length_take. lia. Qed.

Lemma publishAll_bounded (trades : list Trade) : forall st : State,
  (length (tradeHistory st) <= CAPACITY)%nat ->
  (length (tradeHistory (publishAll st trades)) <= CAPACITY)%nat.
Proof.
  induction trades as [|t trades IH]; intros st H; [done|].
  apply IH, publish_length.
Qed.

(** C7.  Over every sequence of publishes the history holds at most
    8000 trades: after one publish, from any state, and from then on;
    and always when started from the empty history.  A publish puts the
    trade at index 0 and keeps the others in order, dropping only from
    the far (oldest) end, and only what exceeds 8000. *)
Theorem history_bounded_newest_first (st : State) (trade : Trade) (later : list Trade) :
  Z.of_nat CAPACITY = 8000 /\
  (length (tradeHistory (publishAll (publish st trade) later)) <= CAPACITY)%nat /\
  (length (tradeHistory (publishAll initial later)) <= CAPACITY)%nat /\
  tradeHistory (publish st trade) !! 0%nat = Some trade /\
  exists evicted,
    trade :: tradeHistory st = (tradeHistory (publish st trade) ++ evicted)%list /\
    length evicted = (length (trade :: tradeHistory st) - CAPACITY)%nat.
Proof.
  split; [unfold CAPACITY; lia|].
  split; [apply publishAll_bounded, publish_length|].
  split; [apply publishAll_bounded; cbn; lia|].
  cbn [publish broadcastTrade fst tradeHistory]. rewrite pushHistory_take.
  split.
  - pose proof CAPACITY_pos. by destruct CAPACITY; [lia|].
  - exists (drop CAPACITY (trade :: tradeHistory st)).
    split; [by rewrite take_drop|]. by rewrite length_drop.
Qed.

End HubFacts.

(* ===================================================================== *)
(** ** Properties of the holder-count aggregator *)
(* ===================================================================== *)

Section HoldersFacts.
Import Holders HoldersSamples.

Lemma readU64LE_from_total (buf : list Byte.byte) (count : nat) :
  forall i n, (i + count <= length buf)%nat ->
    is_Some (readU64LE_from buf i count n).
Proof.
  induction count as [|count IH]; intros i n H; [by eexists|].
  cbn [readU64LE_from].
  destruct (buf !! i) as [b|] eqn:E.
  - apply IH. lia.
  - apply lookup_ge_None in E. lia.
Qed.

Lemma countHolders_total (accounts : list (list Byte.byte)) :
  Forall (fun data => (8 <= length data)%nat) accounts ->
  forall holders zero, exists holders' zero',
    countHolders accounts holders zero = Some (holders', zero') /\
    (holders' + zero' = holders + zero + length accounts)%nat.
Proof.
  induction 1 as [|data accounts Hd _ IH]; intros holders zero.
  - exists holders, zero. cbn. split; [done|lia].
  - cbn [countHolders].
    destruct (readU64LE_from_total data 8 0 0) as [amt Hamt]; [cbn; lia|].
    unfold readU64LE. rewrite Hamt.
    destruct (0 <? amt).
    + destruct (IH (S holders) zero) as (h & z & -> & Hsum).
      exists h, z. split; [done|]. cbn [length]. lia.
    + destruct (IH holders (S zero)) as (h & z & -> & Hsum).
      exists h, z. split; [done|]. cbn [length]. lia.
Qed.

(** What a successful call leaves behind. *)
Lemma holders_call_ok rpc now cache mintStr p cache' tr :
  getToken2022HoldersCached rpc now cache mintStr = (inr p, cache', tr) ->
  cache' = p /\ mint p = Some mintStr.
Proof.
  unfold getToken2022HoldersCached.
  destruct (cacheHit now cache mintStr) eqn:Ehit.
  - intros [= <- <- <-]. split; [done|].
    apply andb_true_iff in Ehit as [Hm _]. by apply bool_decide_eq_true in Hm.
  - destruct (negb (isPublicKey rpc mintStr)); [done|].
    destruct (getAccountInfo rpc mintStr) as [[]|]; [|done|done].
    destruct (getProgramAccounts rpc mintStr) as [accounts|]; [|done].
    destruct (countHolders accounts 0 0) as [[h z]|]; [|done].
    by intros [= <- <- <-].
Qed.

Lemma cacheHit_false now cache mintStr :
  mint cache <> Some mintStr \/ HOLDERS_CACHE_TTL_MS <= now - updatedAt cache ->
  cacheHit now cache mintStr = false.
Proof.
  intros [H|H]; unfold cacheHit.
  - by rewrite bool_decide_eq_false_2.
  - apply andb_false_iff. right. by apply Z.ltb_ge.
Qed.

End HoldersFacts.

Section HoldersClaims.
Import Holders HoldersSamples.

(** C8.  Two calls for the same mint, the second less than the
    10-minute TTL after the [updatedAt] of what the first returned, give
    the very same payload, [updatedAt] included, and the second makes no
    RPC call.  A call for another mint, or once the TTL has passed,
    recomputes: it makes both RPC calls, counts the accounts again, and
    returns (and caches) a payload whose [updatedAt] is the time of that
    call. *)
Theorem holders_cache_ttl (rpc1 rpc2 : Rpc) (cache : HoldersCache)
    (mintStr : string) (now1 now2 : Z) :
  HOLDERS_CACHE_TTL_MS = 600000 /\
  (forall p1 cache1 tr1,
     getToken2022HoldersCached rpc1 now1 cache mintStr = (inr p1, cache1, tr1) ->
     now2 - updatedAt p1 < HOLDERS_CACHE_TTL_MS ->
     getToken2022HoldersCached rpc2 now2 cache1 mintStr = (inr p1, cache1, [])) /\
  (mint cache <> Some mintStr \/ HOLDERS_CACHE_TTL_MS <= now1 - updatedAt cache ->
     (forall p cache' tr,
        getToken2022HoldersCached rpc1 now1 cache mintStr = (inr p, cache', tr) ->
        updatedAt p = now1 /\ cache' = p /\
        tr = [CallGetAccountInfo mintStr; CallGetProgramAccounts mintStr] /\
        (now2 - now1 < HOLDERS_CACHE_TTL_MS ->
           getToken2022HoldersCached rpc2 now2 cache' mintStr = (inr p, cache', []))) /\
     (forall accounts,
        isPublicKey rpc1 mintStr = true ->
        getAccountInfo rpc1 mintStr = Some true ->
        getProgramAccounts rpc1 mintStr = Some accounts ->
        Forall (fun data => (8 <= length data)%nat) accounts ->
        exists p,
          getToken2022HoldersCached rpc1 now1 cache mintStr
            = (inr p, p, [CallGetAccountInfo mintStr; CallGetProgramAccounts mintStr]) /\
          updatedAt p = now1 /\
          mint p = Some mintStr /\
          totalTokenAccounts p = length accounts /\
          countHolders accounts 0 0 = Some (holders p, zeroBalanceAccounts p) /\
          (holders p + zeroBalanceAccounts p = length accounts)%nat /\
          (HOLDERS_CACHE_TTL_MS <= now1 - updatedAt cache ->
             updatedAt cache < updatedAt p))).
Proof.
  assert (Hhit : forall p1 cache1 tr1,
     getToken2022HoldersCached rpc1 now1 cache mintStr = (inr p1, cache1, tr1) ->
     now2 - updatedAt p1 < HOLDERS_CACHE_TTL_MS ->
     getToken2022HoldersCached rpc2 now2 cache1 mintStr = (inr p1, cache1, [])).
  { intros p1 cache1 tr1 H1 Hfresh.
    apply holders_call_ok in H1 as [-> Hmint].
    unfold getToken2022HoldersCached, cacheHit.
    rewrite bool_decide_eq_true_2 by done.
    apply Z.ltb_lt in Hfresh. by rewrite Hfresh. }
  split; [reflexivity|]. split; [exact Hhit|].
  intros Hmiss. apply cacheHit_false in Hmiss as Hno. split.
  - intros p cache' tr H.
    pose proof (holders_call_ok _ _ _ _ _ _ _ H) as [-> _].
    assert (updatedAt p = now1 /\
            tr = [CallGetAccountInfo mintStr; CallGetProgramAccounts mintStr])
      as [Hat Htr].
    { revert H. unfold getToken2022HoldersCached. rewrite Hno.
      destruct (negb (isPublicKey rpc1 mintStr)); [done|].
      destruct (getAccountInfo rpc1 mintStr) as [[]|]; [|done|done].
      destruct (getProgramAccounts rpc1 mintStr) as [accounts|]; [|done].
      destruct (countHolders accounts 0 0) as [[h z]|]; [|done].
      intros Heq. injection Heq as Hp _ Htr. by subst. }
    split; [done|]. split; [done|]. split; [done|].
    intros Hlt. apply (Hhit _ _ _ H). by rewrite Hat.
  - intros accounts Hpk Hinfo Haccs Hdata.
    destruct (countHolders_total accounts Hdata 0%nat 0%nat) as (h & z & Hcount & Hsum).
    exists {| mint := Some mintStr; holders := h;
              totalTokenAccounts := length accounts;
              zeroBalanceAccounts := z; updatedAt := now1 |}.
    unfold getToken2022HoldersCached.
    rewrite Hno, Hpk, Hinfo, Haccs, Hcount. cbn.
    split; [reflexivity|]. split; [done|]. split; [done|]. split; [done|].
    split; [done|]. split; [lia|].
    unfold HOLDERS_CACHE_TTL_MS. lia.
Qed.

Lemma holders_cache_ttl_witness :
  let p := {| mint := Some pepe; holders := 2; totalTokenAccounts := 3;
              zeroBalanceAccounts := 1; updatedAt := 1000000 |} in
  getToken2022HoldersCached threeAccounts 1000000 initialCache pepe
    = (inr p, p, [CallGetAccountInfo pepe; CallGetProgramAccounts pepe]) /\
  getToken2022HoldersCached threeAccounts 1599999 p pepe = (inr p, p, []) /\
  updatedAt (getToken2022HoldersCached threeAccounts 1600000 p pepe).1.2
    = 1600000.
Proof.
  intros p.
  destruct (holders_cache_ttl threeAccounts threeAccounts initialCache pepe
              1000000 1599999) as (_ & Hhit & Hmiss).
  destruct Hmiss as [Hany Hgood]; [by left|].
  destruct (Hgood [amount Byte.x01 Byte.x00; amount Byte.x00 Byte.x00;
                   amount Byte.x00 Byte.x01])
    as (q & Hq & Hat & Hmint & Htotal & Hcount & _);
    [reflexivity | reflexivity | reflexivity | repeat constructor; cbn; lia |].
  assert (q = p) as ->.
  { vm_compute in Hcount. injection Hcount as Hh Hz.
    destruct q as [m h t z u]. cbn in *. subst. reflexivity. }
  split; [exact Hq|]. split; [apply (Hhit _ _ _ Hq); reflexivity|].
  vm_compute. reflexivity.
Defined.

End HoldersClaims.

(* ===================================================================== *)
(** ** Properties of the backfill loop *)
(* ===================================================================== *)

Section BackfillFacts.
Import JSNum Inferrer Backfill BackfillSamples.

Lemma sleeps_app (tr1 tr2 : list Event) :
  sleeps (tr1 ++ tr2)%list = (sleeps tr1 ++ sleeps tr2)%list.
Proof. unfold sleeps. apply omap_app. Qed.

(** One iteration: the counter moves exactly when a trade is kept, and a
    pause is taken exactly when the counter reaches a multiple of 25. *)
Lemma loopBody_step (st : LoopState) (f : Fetched) :
  (exists trade,
     parsedTrades (loopBody st f) = (parsedTrades st ++ [trade])%list /\
     processed (loopBody st f) = processed st + 1 /\
     sleeps (trace (loopBody st f))
       = (sleeps (trace st)
          ++ (if (processed st + 1) mod 25 =? 0 then [120] else []))%list) \/
  (parsedTrades (loopBody st f) = parsedTrades st /\
   processed (loopBody st f) = processed st /\
   trace (loopBody st f) = trace st).
Proof.
  unfold loopBody.
  destruct (fetched f) as [[tx|]|e]; [|by right|by right].
  destruct (parseSwapFromTransaction _ _ _) as [[trade|] counter]; [|by right].
  left. exists trade. cbn. split; [done|]. split; [done|].
  rewrite !sleeps_app.
  destruct (processed st + 1 <=? 5), ((processed st + 1) mod 25 =? 0); cbn;
    by rewrite ?app_nil_r.
Qed.

Lemma loopBody_cadence (st : LoopState) (f : Fetched) :
  cadence st -> cadence (loopBody st f).
Proof.
  intros [Hcount Hsleeps].
  destruct (loopBody_step st f) as [(trade & Hp & Hn & Hs)|(Hp & Hn & Ht)];
    unfold cadence.
  - rewrite Hp, Hn, Hs, Hsleeps, length_app. cbn [length].
    split; [lia|].
    assert (0 <= processed st) by lia.
    destruct ((processed st + 1) mod 25 =? 0) eqn:E.
    + apply Z.eqb_eq in E.
      replace ((processed st + 1) / 25) with (processed st / 25 + 1)
        by (Z.div_mod_to_equations; lia).
      rewrite Z2Nat.inj_add by (Z.div_mod_to_equations; lia).
      by rewrite repeat_app.
    + apply Z.eqb_neq in E. rewrite app_nil_r.
      replace ((processed st + 1) / 25) with (processed st / 25)
        by (Z.div_mod_to_equations; lia).
      done.
  - by rewrite Hp, Hn, Ht.
Qed.

Lemma foldl_loopBody_cadence (txs : list Fetched) : forall st,
  cadence st -> cadence (foldl loopBody st txs).
Proof.
  induction txs as [|f txs IH]; intros st H; [done|].
  apply IH, loopBody_cadence, H.
Qed.

Lemma foldl_loopBody_length (txs : list Fetched) : forall st,
  (length (parsedTrades (foldl loopBody st txs))
     <= length (parsedTrades st) + length txs)%nat.
Proof.
  induction txs as [|f l IH]; intros st; [cbn; lia|].
  cbn [foldl length]. specialize (IH (loopBody st f)).
  destruct (loopBody_step st f) as [(trade & Hp & _)|(Hp & _)];
    rewrite Hp in IH; rewrite ?length_app in IH; cbn in IH; lia.
Qed.

(** C9 as stated fails: 25 transactions are fetched and go through the
    inferrer, none is a trade, and the loop takes no pause. *)
Lemma pause_cadence_counterexample :
  ~ (forall (tradeIdCounter : Z) (txs : list Fetched),
       Forall (fun f => exists tx, fetched f = Retry.Resolved (Some tx)) txs ->
       length (sleeps (trace (processSignatures tradeIdCounter txs)))
         = (length txs / 25)%nat).
Proof.
  intros H. specialize (H 1 quietPage).
  assert (Hall : Forall (fun f => exists tx, fetched f = Retry.Resolved (Some tx))
                   quietPage).
  { apply Forall_forall. intros f Hf.
    apply list_elem_of_In, repeat_spec in Hf as ->.
    by eexists. }
  specialize (H Hall). vm_compute in H. discriminate H.
Qed.

(** The loop keeps exactly the trades the inferrer yields, and hands the
    counter on as the inferrer leaves it. *)
Lemma foldl_loopBody_inferred (txs : list Fetched) : forall st : LoopState,
  parsedTrades (foldl loopBody st txs)
    = (parsedTrades st ++ BackfillSpec.inferred (Backfill.tradeIdCounter st) txs)%list.
Proof.
  induction txs as [|f txs IH]; intros st; [by rewrite app_nil_r|].
  cbn [foldl BackfillSpec.inferred]. rewrite IH. unfold loopBody.
  destruct (fetched f) as [[tx|]|e]; [|done|done].
  destruct (parseSwapFromTransaction _ _ _) as [[trade|] counter]; cbn; [|done].
  by rewrite <- app_assoc.
Qed.

(** C9, amended.  The pause follows every 25th trade the inferrer
    yields.  The loop keeps exactly the trades the inferrer yields over
    the transactions fetched; [processed] counts those trades, not the
    transactions gone through: a failed fetch and a null transaction leave
    the loop state as it is, a transaction that is no trade leaves the
    count, the trades and the trace as they are, and a trade raises the
    count by one and is followed by a 120 ms pause exactly when the count
    reaches a multiple of 25.  After any run the loop has slept 120 ms
    once per full 25 trades. *)
Theorem pause_every_25_trades (tradeIdCounter : Z) (txs : list Fetched) :
  let st := processSignatures tradeIdCounter txs in
  let trades := BackfillSpec.inferred tradeIdCounter txs in
  parsedTrades st = trades /\
  processed st = Z.of_nat (length trades) /\
  (length trades <= length txs)%nat /\
  sleeps (trace st) = repeat 120 (length trades / 25)%nat /\
  (forall st0 f,
     match fetched f with
     | Retry.Rejected _ | Retry.Resolved None => loopBody st0 f = st0
     | Retry.Resolved (Some tx) =>
         match parseSwapFromTransaction (nowAt f) (Backfill.tradeIdCounter st0) (Some tx) with
         | (None, _) =>
             parsedTrades (loopBody st0 f) = parsedTrades st0 /\
             processed (loopBody st0 f) = processed st0 /\
             trace (loopBody st0 f) = trace st0
         | (Some trade, _) =>
             parsedTrades (loopBody st0 f) = (parsedTrades st0 ++ [trade])%list /\
             processed (loopBody st0 f) = processed st0 + 1 /\
             sleeps (trace (loopBody st0 f))
               = (sleeps (trace st0)
                  ++ (if (processed st0 + 1) mod 25 =? 0 then [120] else []))%list
         end
     end).
Proof.
  cbn zeta.
  destruct (foldl_loopBody_cadence txs (start tradeIdCounter)) as [Hcount Hsleeps];
    [by split|].
  fold (processSignatures tradeIdCounter txs) in Hcount, Hsleeps.
  assert (Htrades : parsedTrades (processSignatures tradeIdCounter txs)
                    = BackfillSpec.inferred tradeIdCounter txs).
  { unfold processSignatures. by rewrite foldl_loopBody_inferred. }
  rewrite <- Htrades.
  split; [done|]. split; [exact Hcount|]. split; [|split].
  - apply (foldl_loopBody_length txs (start tradeIdCounter)).
  - rewrite Hsleeps, Hcount. f_equal.
    rewrite <- (Nat2Z.id (_ / 25)%nat). f_equal.
    by rewrite Nat2Z.inj_div.
  - intros st0 f. unfold loopBody.
    destruct (fetched f) as [[tx|]|e]; [|done|done].
    destruct (parseSwapFromTransaction _ _ _) as [[trade|] counter]; cbn; [|done].
    split; [done|]. split; [done|]. rewrite !sleeps_app.
    destruct (processed st0 + 1 <=? 5), ((processed st0 + 1) mod 25 =? 0); cbn;
      by rewrite ?app_nil_r.
Qed.

Lemma pause_every_25_trades_witness :
  sleeps (trace (processSignatures 1 busyPage)) = [120] /\
  length (parsedTrades (processSignatures 1 busyPage)) = 25%nat /\
  sleeps (trace (processSignatures 1 quietPage)) = [] /\
  parsedTrades (processSignatures 1 quietPage) = [].
Proof.
  pose proof (pause_every_25_trades 1 busyPage) as Hb. cbn zeta in Hb.
  pose proof (pause_every_25_trades 1 quietPage) as Hq. cbn zeta in Hq.
  destruct Hb as (Hb1 & _ & _ & Hb2 & _). destruct Hq as (Hq1 & _ & _ & Hq2 & _).
  rewrite Hb1, Hb2, Hq1, Hq2.
  split; [|split; [|split]]; vm_compute; reflexivity.
Defined.

(** 25 buys in a row: one pause, after the 25th. *)
Lemma busy_page_one_pause :
  sleeps (trace (processSignatures 1 busyPage)) = [120] /\
  length (parsedTrades (processSignatures 1 busyPage)) = 25%nat.
Proof. split; vm_compute; reflexivity. Qed.

End BackfillFacts.

(* ===================================================================== *)
(** ** Further properties of the inferrer *)
(* ===================================================================== *)

Section InferrerEntries.
Import JSNum Inferrer Samples.

Local Abbreviation fill := (foldl (fun (m : gmap nat TokenBalance) p => <[accountIndex p := p]> m)).

Lemma deltaStep_skip trader pbi acc e :
  traderChange trader PEPE_MINT pbi e = None ->
  traderChange trader XNT_MINT pbi e = None ->
  deltaStep trader pbi acc e = acc.
Proof.
  intros Hp Hx. rewrite deltaStep_traderChange, Hp, Hx. by destruct acc.
Qed.

Lemma tokenDeltas_skip trader pre1 e pre2 post :
  traderChange trader PEPE_MINT (postByIndex post) e = None ->
  traderChange trader XNT_MINT (postByIndex post) e = None ->
  tokenDeltas trader (pre1 ++ e :: pre2) post = tokenDeltas trader (pre1 ++ pre2) post.
Proof.
  intros Hp Hx. unfold tokenDeltas. rewrite !foldl_app. cbn [foldl].
  by rewrite (deltaStep_skip _ _ _ _ Hp Hx).
Qed.

(** X1.  A token-balance entry that is not the trader's changes nothing:
    when the owner the loop uses ([pre.owner || post.owner]) is missing,
    empty or another address, both deltas are what they are without the
    entry.  In particular a pre-balance with a non-empty owner other than
    the trader is ignored even if the post-balance names the trader. *)
Theorem foreign_owner_ignored trader pre1 e pre2 post :
  ((forall q, postByIndex post !! accountIndex e = Some q ->
              ownedBy trader e q = false) ->
   tokenDeltas trader (pre1 ++ e :: pre2) post = tokenDeltas trader (pre1 ++ pre2) post) /\
  (forall o, owner e = Some o -> o <> "" -> o <> trader ->
   tokenDeltas trader (pre1 ++ e :: pre2) post = tokenDeltas trader (pre1 ++ pre2) post).
Proof.
  assert (Hgen : (forall q, postByIndex post !! accountIndex e = Some q ->
                            ownedBy trader e q = false) ->
    tokenDeltas trader (pre1 ++ e :: pre2) post = tokenDeltas trader (pre1 ++ pre2) post).
  { intros H. apply tokenDeltas_skip; unfold traderChange;
      (destruct (postByIndex post !! accountIndex e) as [q|] eqn:E; [|done]);
      cbn; by rewrite (H q). }
  split; [exact Hgen|].
  intros o Ho Hne Hother. apply Hgen. intros q _.
  unfold ownedBy, strOr. rewrite Ho.
  destruct (String.eqb o "") eqn:E; [by apply String.eqb_eq in E|].
  apply andb_false_iff. right. apply bool_decide_eq_false_2. congruence.
Qed.

Lemma foreign_owner_ignored_witness :
  tokenDeltas trader
    ([balance 1 PEPE_MINT trader 1000] ++ balance 3 PEPE_MINT pool 500 :: [])
    [balance 1 PEPE_MINT trader 1200; balance 3 PEPE_MINT trader 100]
  = (ofZ 200, zero).
Proof.
  destruct (foreign_owner_ignored trader [balance 1 PEPE_MINT trader 1000]
              (balance 3 PEPE_MINT pool 500) []
              [balance 1 PEPE_MINT trader 1200; balance 3 PEPE_MINT trader 100])
    as [_ H].
  rewrite (H pool); [vm_compute; reflexivity | reflexivity | discriminate | discriminate].
Defined.

(** X2.  An entry of a mint other than the two tracked ones changes
    neither delta, whoever owns it. *)
Theorem untracked_mint_ignored trader pre1 e pre2 post :
  mint e <> PEPE_MINT -> mint e <> XNT_MINT ->
  tokenDeltas trader (pre1 ++ e :: pre2) post = tokenDeltas trader (pre1 ++ pre2) post.
Proof.
  intros Hp Hx. apply String.eqb_neq in Hp, Hx.
  apply tokenDeltas_skip; unfold traderChange;
    (destruct (postByIndex post !! accountIndex e) as [q|]; [|done]);
    cbn; rewrite ?Hp, ?Hx; by rewrite andb_false_r.
Qed.

Lemma untracked_mint_ignored_witness :
  tokenDeltas trader
    ([balance 1 PEPE_MINT trader 1000] ++ balance 3 pool trader 500 :: [])
    [balance 1 PEPE_MINT trader 1200; balance 3 pool trader 100]
  = (ofZ 200, zero).
Proof.
  rewrite (untracked_mint_ignored trader [balance 1 PEPE_MINT trader 1000]
             (balance 3 pool trader 500) []);
    [vm_compute; reflexivity | discriminate | discriminate].
Defined.

(** Once an entry with index [k] has been set, what the map held before
    does not matter at [k]. *)
Lemma fill_present (k : nat) (l : list TokenBalance) :
  k ∈ map accountIndex l ->
  forall m m' : gmap nat TokenBalance, fill m l !! k = fill m' l !! k.
Proof.
  induction l as [|p l IH]; intros Hk m m'; [by apply elem_of_nil in Hk|].
  cbn [foldl]. destruct (decide (accountIndex p = k)) as [<-|Hne].
  - apply fill_agree. by rewrite !lookup_insert_eq.
  - cbn [map] in Hk. apply elem_of_cons in Hk as [Hk|Hk]; [congruence|].
    by apply IH.
Qed.

(** X3.  Of several post-balances with one account index the last one is
    the one the loop sees: an entry followed by another of the same index
    can be removed without changing either delta, and the lookup at an
    index returns the last entry set for it. *)
Theorem last_post_balance_wins trader pre post1 q post2 :
  (accountIndex q ∈ map accountIndex post2 ->
   tokenDeltas trader pre (post1 ++ q :: post2) = tokenDeltas trader pre (post1 ++ post2)) /\
  (accountIndex q ∉ map accountIndex post2 ->
   postByIndex (post1 ++ q :: post2) !! accountIndex q = Some q).
Proof.
  split.
  - intros Hin. unfold tokenDeltas. apply foldl_deltaStep_agree. intros e _.
    destruct (decide (accountIndex q = accountIndex e)) as [Heq|Hne].
    + rewrite <- Heq. unfold postByIndex. rewrite !foldl_app. cbn [foldl].
      by apply fill_present.
    + by apply postByIndex_drop.
  - intros Hnot. unfold postByIndex. rewrite foldl_app. cbn [foldl].
    rewrite (fill_absent _ _ _ Hnot). by rewrite lookup_insert_eq.
Qed.

Lemma last_post_balance_wins_witness :
  tokenDeltas trader [balance 1 PEPE_MINT trader 1000]
    ([] ++ balance 1 PEPE_MINT trader 5000 :: [balance 1 PEPE_MINT trader 1200])
  = (ofZ 200, zero) /\
  postByIndex ([balance 1 PEPE_MINT trader 5000] ++ balance 1 PEPE_MINT trader 1200 :: [])
    !! 1%nat = Some (balance 1 PEPE_MINT trader 1200).
Proof.
  split.
  - destruct (last_post_balance_wins trader [balance 1 PEPE_MINT trader 1000] []
                (balance 1 PEPE_MINT trader 5000) [balance 1 PEPE_MINT trader 1200])
      as [H _].
    rewrite H; [vm_compute; reflexivity|]. cbn. by left.
  - destruct (last_post_balance_wins trader [] [balance 1 PEPE_MINT trader 5000]
                (balance 1 PEPE_MINT trader 1200) []) as [_ H].
    apply H. cbn. by intros ?%elem_of_nil.
Defined.

End InferrerEntries.

Section InferrerRecord.
Import JSNum Inferrer Samples.

Lemma classify_inv p x ty :
  classify p x = Some ty ->
  match ty with
  | lp_add => ltb p zero = true /\ ltb x zero = true
  | lp_remove => ltb zero p = true /\ ltb zero x = true
  | buy => ltb zero p = true /\ ltb x zero = true
  | sell => ltb p zero = true /\ ltb zero x = true
  end.
Proof.
  unfold classify.
  destruct (ltb p zero), (ltb zero p), (ltb x zero), (ltb zero x);
    cbn; intros [= <-]; by split.
Qed.

(** X4.  The trade type tells the direction of both balances: for a
    trade that comes out with transaction [tx0], [buy] means the trader's
    asset balance rose and the base balance fell, [sell] the opposite,
    [lp_add] that both fell and [lp_remove] that both rose. *)
Theorem trade_type_gives_signs now ctr tx0 m t ctr' :
  meta tx0 = Some m ->
  parseSwapFromTransaction now ctr (Some tx0) = (Some t, ctr') ->
  let assetChange := pepeChangeOf tx0 m in
  let baseChange := xntChangeOf tx0 m in
  match trade_type t with
  | lp_add => ltb assetChange zero = true /\ ltb baseChange zero = true
  | lp_remove => ltb zero assetChange = true /\ ltb zero baseChange = true
  | buy => ltb zero assetChange = true /\ ltb baseChange zero = true
  | sell => ltb assetChange zero = true /\ ltb zero baseChange = true
  end.
Proof.
  intros Hm H. apply parseSwap_Some in H
    as (tx1 & m1 & ty & [= <-] & Hm1 & _ & _ & Hc & Hty & _).
  rewrite Hm in Hm1. injection Hm1 as <-. rewrite Hty.
  by apply classify_inv.
Qed.

Lemma trade_type_gives_signs_witness :
  ltb zero (pepeChangeOf buyTx (metaOf buyTx)) = true /\
  ltb (xntChangeOf buyTx (metaOf buyTx)) zero = true.
Proof.
  destruct (parseSwapFromTransaction zero 1 (Some buyTx)) as [[t|] c] eqn:E;
    [|vm_compute in E; discriminate E].
  pose proof (trade_type_gives_signs zero 1 buyTx (metaOf buyTx) t c eq_refl E) as H.
  cbn zeta in H.
  assert (Hty : trade_type t = buy) by (vm_compute in E; by injection E as <- _).
  rewrite Hty in H. exact H.
Defined.

Lemma substring_0_length (n : nat) (s : string) :
  String.length (substring 0 n s) = Nat.min n (String.length s).
Proof.
  revert s. induction n as [|n IH]; intros [|c s]; cbn; try done.
  by rewrite IH.
Qed.

Lemma substring_0_prefix (n : nat) (s : string) :
  String.prefix (substring 0 n s) s = true.
Proof.
  revert s. induction n as [|n IH]; intros [|c s]; cbn; try done.
  destruct (Ascii.ascii_dec c c); [apply IH|done].
Qed.

(** X5.  In every trade, [trader_prefix] is the first six characters of
    [trader_address]: a prefix of it, of length 6, or the whole address
    when that has fewer than six characters. *)
Theorem trader_prefix_is_prefix now ctr tx t ctr' :
  parseSwapFromTransaction now ctr tx = (Some t, ctr') ->
  String.prefix (trader_prefix t) (trader_address t) = true /\
  String.length (trader_prefix t)
    = Nat.min 6 (String.length (trader_address t)) /\
  exists tx0, tx = Some tx0 /\ trader_address t = traderAddressOf tx0.
Proof.
  destruct tx as [tx0|]; [|discriminate].
  destruct (meta tx0) as [m|] eqn:Hm; [|by cbn; rewrite Hm].
  rewrite (parseSwap_unfold _ _ _ _ Hm).
  destruct (eqb (pepeChangeOf tx0 m) zero); [discriminate|].
  destruct (eqb (xntChangeOf tx0 m) zero); [discriminate|].
  destruct (classify _ _) as [ty|]; [|discriminate].
  intros [= <- <-]. cbn [trader_prefix trader_address].
  split; [apply substring_0_prefix|]. split; [apply substring_0_length|].
  by exists tx0.
Qed.

Lemma trader_prefix_is_prefix_witness :
  trader_prefix <$> fst (parseSwapFromTransaction zero 1 (Some buyTx)) = Some "Trader".
Proof.
  destruct (parseSwapFromTransaction zero 1 (Some buyTx)) as [[t|] c] eqn:E;
    [|vm_compute in E; discriminate E].
  destruct (trader_prefix_is_prefix _ _ _ _ _ E) as (_ & _ & tx0 & _ & _).
  vm_compute in E. injection E as <- _. reflexivity.
Defined.

(** The fields of a returned trade that are read off the transaction. *)
Lemma parseSwap_fields now ctr tx t ctr' :
  parseSwapFromTransaction now ctr (Some tx) = (Some t, ctr') ->
  signature t = signatureOf tx /\
  trader_address t = traderAddressOf tx /\
  timestamp t = timestampOf now tx /\
  trade_slot t = slot tx.
Proof.
  destruct (meta tx) as [m|] eqn:Hm; [|by cbn; rewrite Hm].
  rewrite (parseSwap_unfold _ _ _ _ Hm).
  destruct (eqb (pepeChangeOf tx m) zero); [discriminate|].
  destruct (eqb (xntChangeOf tx m) zero); [discriminate|].
  destruct (classify _ _) as [ty|]; [|discriminate].
  by intros [= <- <-].
Qed.

Lemma signatureOf_cases (tx : Tx) :
  signatureOf tx <> "" /\
  (forall tr s rest, transaction tx = Some tr -> signatures tr = Some (s :: rest) ->
     s <> "" -> signatureOf tx = s) /\
  (forall s rest,
     strTruthy (transaction tx ≫= fun tr => firstOf (signatures tr)) = false ->
     tx_signatures tx = Some (s :: rest) -> s <> "" -> signatureOf tx = s) /\
  (strTruthy (transaction tx ≫= fun tr => firstOf (signatures tr)) = false ->
   strTruthy (firstOf (tx_signatures tx)) = false ->
   signatureOf tx = "unknown_signature").
Proof.
  unfold signatureOf. repeat apply conj.
  - destruct (transaction tx ≫= _) as [a|]; cbn;
      [destruct (String.eqb a "") eqn:Ea; cbn|];
      try (destruct (firstOf (tx_signatures tx)) as [b|]; cbn;
           [destruct (String.eqb b "") eqn:Eb; cbn|]);
      rewrite ?Ea, ?Eb; cbn; try done;
      intros ->; by rewrite String.eqb_refl in *.
  - intros tr s rest -> Hs Hne. cbn. rewrite Hs. cbn.
    apply String.eqb_neq in Hne. rewrite Hne. cbn. by rewrite Hne.
  - intros s rest Ha -> Hne. apply String.eqb_neq in Hne.
    destruct (transaction tx ≫= _) as [a|]; cbn in *;
      [apply negb_false_iff in Ha; rewrite Ha|]; cbn; by rewrite !Hne.
  - intros Ha Hb.
    destruct (transaction tx ≫= _) as [a|]; cbn in *;
      [apply negb_false_iff in Ha; rewrite Ha|];
      (destruct (firstOf (tx_signatures tx)) as [b|]; cbn in *;
       [apply negb_false_iff in Hb; by rewrite Hb|done]).
Qed.

(** X6.  The signature of a trade the inferrer returns is never empty:
    it is the first signature inside [tx.transaction] when that is a
    non-empty string, else the first of [tx.signatures] when that is one,
    else the text "unknown_signature". *)
Theorem signature_never_empty now ctr (tx : Tx) t ctr' :
  parseSwapFromTransaction now ctr (Some tx) = (Some t, ctr') ->
  signature t <> "" /\
  (forall tr s rest, transaction tx = Some tr -> signatures tr = Some (s :: rest) ->
     s <> "" -> signature t = s) /\
  (forall s rest,
     strTruthy (transaction tx ≫= fun tr => firstOf (signatures tr)) = false ->
     tx_signatures tx = Some (s :: rest) -> s <> "" -> signature t = s) /\
  (strTruthy (transaction tx ≫= fun tr => firstOf (signatures tr)) = false ->
   strTruthy (firstOf (tx_signatures tx)) = false ->
   signature t = "unknown_signature").
Proof.
  intros H. apply parseSwap_fields in H as (-> & _). apply signatureOf_cases.
Qed.

Lemma signature_never_empty_witness :
  let unsigned :=
    {| meta := meta buyTx;
       transaction := Some {| message := Some {| accountKeys := Some [KeyParsed trader] |};
                              signatures := Some [""] |};
       tx_signatures := None; blockTime := None; slot := None |} in
  signature <$> fst (parseSwapFromTransaction zero 1 (Some buyTx)) = Some "5sig" /\
  signature <$> fst (parseSwapFromTransaction zero 1 (Some unsigned))
    = Some "unknown_signature".
Proof.
  intros unsigned. split.
  - destruct (parseSwapFromTransaction zero 1 (Some buyTx)) as [[t|] c] eqn:E;
      [|vm_compute in E; discriminate E].
    destruct (signature_never_empty _ _ _ _ _ E) as (_ & H & _).
    cbn. f_equal. apply (H _ "5sig" [] eq_refl eq_refl). discriminate.
  - destruct (parseSwapFromTransaction zero 1 (Some unsigned)) as [[t|] c] eqn:E;
      [|vm_compute in E; discriminate E].
    destruct (signature_never_empty _ _ _ _ _ E) as (_ & _ & _ & H).
    cbn. f_equal. apply H; reflexivity.
Defined.

(** X7.  The native fallback needs the trader's own lamport entries: when
    the transaction has no first account key, or the pre- or post-balance
    list has no number at index 0, the native delta is 0, so a trade
    comes out only if the SPL base delta is nonzero. *)
Theorem native_fallback_unavailable now ctr tx m :
  meta tx = Some m ->
  (forall k keys, messageAccountKeys tx <> Some (Some (k :: keys))) \/
  lamportsAt (default [] (preBalances m)) 0 = None \/
  lamportsAt (default [] (postBalances m)) 0 = None ->
  xntNativeChangeOf tx m (traderAddressOf tx) = zero /\
  (eqb (xntTokenChangeOf tx m) zero = true ->
   parseSwapFromTransaction now ctr (Some tx) = (None, ctr)).
Proof.
  intros Hm Hcase.
  assert (Hz : xntNativeChangeOf tx m (traderAddressOf tx) = zero).
  { unfold xntNativeChangeOf.
    destruct (messageAccountKeys tx) as [[[|k keys]|]|] eqn:Hk; try done.
    rewrite (traderIndex_first _ _ _ Hk).
    destruct Hcase as [H|[H|H]]; [by destruct (H k keys)| |]; rewrite H; [done|].
    by destruct (lamportsAt (default [] (preBalances m)) 0). }
  split; [exact Hz|]. intros Hs.
  rewrite (parseSwap_unfold _ _ _ _ Hm).
  assert (eqb (xntChangeOf tx m) zero = true) as ->.
  { unfold xntChangeOf, chooseXntChange. by rewrite Hs, Hz. }
  by destruct (eqb (pepeChangeOf tx m) zero).
Qed.

Lemma native_fallback_unavailable_witness :
  let tx := mkTx [balance 1 PEPE_MINT trader 1000] [balance 1 PEPE_MINT trader 1200]
                 [] [4000000000] in
  parseSwapFromTransaction zero 1 (Some tx) = (None, 1).
Proof.
  intros tx.
  destruct (native_fallback_unavailable zero 1 tx (metaOf tx) eq_refl) as [_ H];
    [right; left; reflexivity|].
  apply H. vm_compute. reflexivity.
Defined.

End InferrerRecord.

(* ===================================================================== *)
(** ** Further properties of the retry wrapper *)
(* ===================================================================== *)

Section RetryOptions.
Import Retry RetrySamples.




(** X9.  Rate limiting is ridden out: when call [k] of [fn] resolves,
    every earlier call failed with a rate-limit error and [k] is within
    the retry ceiling, [withRetry] resolves with that value after exactly
    [k] sleeps. *)
Theorem withRetry_succeeds_after_rate_limits {A : Type} (fn : nat -> Outcome A)
    (opts : option Options) (k : nat) (a : A) :
  fn k = Resolved a ->
  Z.of_nat k <= retriesOf opts ->
  (forall j, (j < k)%nat -> exists e, fn j = Rejected e /\ is429 e = true) ->
  exists r,
    withRetry fn opts = Some r /\
    settled r = Resolved a /\
    length (delays r) = k /\
    calls r = S k.
Proof.
  intros Hk Hlim Hearlier.
  destruct (retryLoop_total fn opts (S (Z.to_nat (retriesOf opts))) 0) as [r Hr];
    [lia | lia |].
  exists r. split; [exact Hr|].
  destruct (retryLoop_run fn opts _ _ _ Hr) as (Hs & Hc & Hd & Hceil).
  cbn [Nat.add] in Hs, Hd, Hceil.
  assert (length (delays r) = k) as Hlen.
  { destruct (Nat.lt_trichotomy (length (delays r)) k) as [Hlt|[Heq|Hgt]]; [|done|].
    - destruct (Hearlier _ Hlt) as (e & He & H429).
      rewrite He in Hs. specialize (Hceil e Hs H429). lia.
    - destruct (Hd k Hgt) as (_ & _ & e & He & _). congruence. }
  rewrite Hc, Hs, Hlen. by rewrite Hk.
Qed.

Lemma withRetry_succeeds_after_rate_limits_witness :
  settled <$> withRetry flaky None = Some (Resolved 7%nat).
Proof.
  destruct (withRetry_succeeds_after_rate_limits flaky None 2 7%nat)
    as (r & Hr & Hs & _).
  - reflexivity.
  - cbn. lia.
  - intros [|[|j]] Hj; [by exists tooMany | by exists tooMany | lia].
  - rewrite Hr. cbn. by rewrite Hs.
Defined.

End RetryOptions.

(* ===================================================================== *)
(** ** Further properties of the hub and the stream endpoint *)
(* ===================================================================== *)

Section StreamFacts.
Import Inferrer Hub Stream.

Lemma take_cons_take {X : Type} (n : nat) (x : X) (l : list X) :
  take n (x :: take n l) = take n (x :: l).
Proof.
  destruct n as [|n]; [done|]. cbn. f_equal.
  rewrite take_take. f_equal. lia.
Qed.

Lemma publishAll_take (trades : list Trade) : forall (st : State) (h : list Trade),
  tradeHistory st = take CAPACITY h ->
  tradeHistory (publishAll st trades) = take CAPACITY (rev trades ++ h)%list /\
  clients (publishAll st trades) = clients st.
Proof.
  induction trades as [|t trades IH]; intros st h Hst; [done|].
  cbn [publishAll foldl]. destruct (IH (publish st t) (t :: h)) as [Hh Hc].
  - cbn. by rewrite pushHistory_take, Hst, take_cons_take.
  - split; [|exact Hc]. unfold publishAll in Hh. rewrite Hh.
    cbn [rev]. by rewrite <- app_assoc.
Qed.

(** X10.  Publishing composes: after the trades [t1 ... tn] have been
    published in that order, the history is [tn ... t1] followed by the
    former history, cut at 8000; the clients are untouched. *)
Theorem publishAll_newest_first (st : State) (trade : Trade) (later : list Trade) :
  tradeHistory (publishAll st (trade :: later))
    = take CAPACITY (rev (trade :: later) ++ tradeHistory st)%list /\
  clients (publishAll st (trade :: later)) = clients st.
Proof.
  cbn [publishAll foldl].
  destruct (publishAll_take later (publish st trade) (trade :: tradeHistory st))
    as [Hh Hc]; [by cbn; rewrite pushHistory_take|].
  split; [|exact Hc]. unfold publishAll in Hh. rewrite Hh.
  cbn [rev]. by rewrite <- app_assoc.
Qed.

Lemma received_app (c : Client) (w1 w2 : list (Client * SseEvent)) :
  received c (w1 ++ w2)%list = (received c w1 ++ received c w2)%list.
Proof. unfold received. apply omap_app. Qed.

(** What one broadcast writes to [c]: one event per registration of [c]. *)
Lemma received_broadcast (c : Client) (trade : Trade) (cs : list Client) :
  received c (map (fun client => (client, EvTrade trade)) cs)
    = replicate (length (filter (fun x => x = c) cs)) (EvTrade trade).
Proof.
  induction cs as [|x cs IH]; [done|].
  cbn [map]. unfold received in *. cbn [omap list_omap fst snd].
  rewrite filter_cons. destruct (decide (x = c)) as [->|Hne].
  - cbn. by rewrite IH.
  - by rewrite IH.
Qed.

Lemma filter_eq_filter_ne (c c' : Client) (cs : list Client) :
  c' <> c ->
  filter (fun x => x = c) (filter (fun x => x <> c') cs) = filter (fun x => x = c) cs.
Proof.
  intros Hne. induction cs as [|x cs IH]; [done|].
  rewrite !filter_cons. destruct (decide (x <> c')) as [Hx|Hx].
  - rewrite filter_cons. destruct (decide (x = c)); by rewrite IH.
  - destruct (decide (x = c)) as [->|]; [|done].
    exfalso. apply Hx. congruence.
Qed.

(** Over operations that neither subscribe nor close [c], the number of
    registrations of [c] stays, and [c] gets each published trade once per
    registration. *)
Lemma run_received (c : Client) (ops : list Op) : forall st : State,
  forallb (fun op => negb (concerns c op)) ops = true ->
  received c (snd (run st ops))
    = flat_map (fun trade =>
        replicate (length (filter (fun x => x = c) (clients st))) (EvTrade trade))
        (published ops).
Proof.
  induction ops as [|op ops IH]; intros st Hops; [done|].
  cbn [forallb] in Hops. apply andb_true_iff in Hops as [Hop Hops].
  assert (Hstep :
    received c (snd (step st op))
      = match op with
        | Publish trade =>
            replicate (length (filter (fun x => x = c) (clients st))) (EvTrade trade)
        | _ => []
        end /\
    filter (fun x => x = c) (clients (fst (step st op)))
      = filter (fun x => x = c) (clients st)).
  { destruct op as [c'|c'|trade]; cbn [step subscribe close broadcastTrade fst snd clients].
    - apply negb_true_iff, bool_decide_eq_false in Hop.
      split.
      + unfold received. cbn. by destruct (decide (c' = c)).
      + rewrite filter_app, filter_cons, filter_nil.
        destruct (decide (c' = c)); [done|]. by rewrite app_nil_r.
    - apply negb_true_iff, bool_decide_eq_false in Hop.
      split; [done|]. by apply filter_eq_filter_ne.
    - split; [apply received_broadcast|done]. }
  destruct Hstep as [Hw Hc].
  cbn [run]. destruct (step st op) as [st1 w1].
  specialize (IH st1 Hops). destruct (run st1 ops) as [st2 w2].
  cbn [fst snd] in *. rewrite received_app, IH, Hw, Hc.
  by destruct op.
Qed.

Lemma flat_map_singleton {X Y : Type} (f : X -> Y) (l : list X) :
  flat_map (fun x => replicate 1 (f x)) l = map f l.
Proof. induction l as [|x l IH]; [done|]. cbn [flat_map map]. by rewrite IH. Qed.

Lemma flat_map_empty {X Y : Type} (f : X -> Y) (l : list X) :
  flat_map (fun x => replicate 0 (f x)) l = [].
Proof. induction l as [|x l IH]; [done|]. cbn [flat_map]. by rewrite IH. Qed.

Lemma filter_eq_absent (c : Client) (cs : list Client) :
  c ∉ cs -> filter (fun x => x = c) cs = [].
Proof.
  intros H. induction cs as [|x cs IH]; [done|].
  apply not_elem_of_cons in H as [Hne Hcs].
  rewrite filter_cons. destruct (decide (x = c)); [congruence|by apply IH].
Qed.

(** X11.  A new subscriber gets one history event, holding the newest
    trades of the buffer (its first 2000 entries, or all when fewer), and
    after it every trade published while it stays connected, each once and
    in publish order. *)
Theorem subscriber_gets_history_then_trades (st : State) (c : Client) (ops : list Op) :
  c ∉ clients st ->
  forallb (fun op => negb (concerns c op)) ops = true ->
  received c (snd (run st (Subscribe c :: ops)))
    = EvHistory (take REPLAY (tradeHistory st)) :: map EvTrade (published ops) /\
  Z.of_nat (length (take REPLAY (tradeHistory st)))
    = Z.min 2000 (Z.of_nat (length (tradeHistory st))).
Proof.
  intros Hfresh Hops. split.
  - cbn [run step subscribe].
    pose proof (run_received c ops
      {| clients := (clients st ++ [c])%list; tradeHistory := tradeHistory st |} Hops) as H.
    destruct (run _ ops) as [st2 w2]. cbn [snd] in *.
    rewrite received_app, H. cbn [clients].
    rewrite filter_app, (filter_eq_absent _ _ Hfresh).
    unfold received at 1. cbn.
    destruct (decide (c = c)); [|done].
    cbn [length app]. by rewrite flat_map_singleton.
  - rewrite length_take. unfold REPLAY. lia.
Qed.

Lemma subscriber_gets_history_then_trades_witness :
  let t1 := StreamSamples.tradeNo 1 in
  let t2 := StreamSamples.tradeNo 2 in
  received 7%nat (snd (run initial [Subscribe 7%nat; Publish t1; Subscribe 8%nat;
                                    Publish t2; Close 8%nat]))
    = [EvHistory []; EvTrade t1; EvTrade t2].
Proof.
  intros t1 t2.
  destruct (subscriber_gets_history_then_trades initial 7%nat
              [Publish t1; Subscribe 8%nat; Publish t2; Close 8%nat]) as [H _].
  - cbn. by intros ?%elem_of_nil.
  - reflexivity.
  - exact H.
Defined.

(** X12.  A closed connection gets nothing more: after [close] for [c],
    whatever is published or whoever else subscribes or closes, no event is
    written to [c]; the history is as it was, and every other client is
    still registered as before. *)
Theorem closed_client_gets_nothing (st : State) (c : Client) (ops : list Op) :
  forallb (fun op => negb (concerns c op)) ops = true ->
  received c (snd (run st (Close c :: ops))) = [] /\
  (c ∉ clients (close st c)) /\
  tradeHistory (close st c) = tradeHistory st /\
  (forall c', c' <> c ->
     filter (fun x => x = c') (clients (close st c))
       = filter (fun x => x = c') (clients st)).
Proof.
  intros Hops. split; [|split; [|split]].
  - cbn [run step]. pose proof (run_received c ops (close st c) Hops) as H.
    destruct (run _ ops) as [st2 w2]. cbn [snd app] in *. rewrite H.
    cbn [close clients].
    assert (filter (fun x => x = c) (filter (fun x => x <> c) (clients st)) = []) as ->.
    { apply filter_eq_absent. intros Hin%list_elem_of_filter. by destruct Hin. }
    cbn [length]. apply (flat_map_empty EvTrade).
  - cbn. intros Hin%list_elem_of_filter. by destruct Hin.
  - done.
  - intros c' Hne. cbn. by apply filter_eq_filter_ne.
Qed.

Lemma closed_client_gets_nothing_witness :
  let t1 := StreamSamples.tradeNo 1 in
  received 7%nat (snd (run {| clients := [7%nat; 8%nat]; tradeHistory := [] |}
                           [Close 7%nat; Publish t1])) = [].
Proof.
  intros t1.
  destruct (closed_client_gets_nothing {| clients := [7%nat; 8%nat]; tradeHistory := [] |}
              7%nat [Publish t1]) as [H _]; [reflexivity|exact H].
Defined.

End StreamFacts.

(* ===================================================================== *)
(** ** Further properties of the holder-count aggregator *)
(* ===================================================================== *)

Section ReadU64.
Import Holders HoldersSamples LittleEndian.

Lemma lor_above (n b k : Z) :
  0 <= k -> 0 <= n < 2 ^ k -> Z.lor n (Z.shiftl b k) = n + b * 2 ^ k.
Proof.
  intros Hk Hn.
  assert (Hland : Z.land n (Z.shiftl b k) = 0).
  { apply Z.bits_inj'. intros j Hj. rewrite Z.land_spec, Z.bits_0.
    destruct (Z.lt_ge_cases j k) as [Hlt|Hge].
    - by rewrite (Z.shiftl_spec_low _ _ _ Hlt), andb_false_r.
    - rewrite <- (Z.mod_small n (2 ^ k)) by lia.
      by rewrite Z.mod_pow2_bits_high by lia. }
  rewrite <- Z.lxor_lor, <- Z.add_nocarry_lxor by done.
  by rewrite Z.shiftl_mul_pow2.
Qed.

Lemma byte_range (b : Byte.byte) : 0 <= Z.of_N (Byte.to_N b) <= 255.
Proof. pose proof (Byte.to_N_bounded b). lia. Qed.

Lemma leValue_range (bytes : list Byte.byte) :
  0 <= leValue bytes < 256 ^ Z.of_nat (length bytes).
Proof.
  induction bytes as [|b bytes IH]; [cbn; lia|].
  cbn [leValue length]. pose proof (byte_range b).
  rewrite Nat2Z.inj_succ, Z.pow_succ_r by lia. lia.
Qed.

Lemma readU64LE_from_value (buf : list Byte.byte) (count : nat) : forall (i : nat) (n : Z),
  0 <= n < 2 ^ (8 * Z.of_nat i) ->
  (i + count <= length buf)%nat ->
  readU64LE_from buf i count n
    = Some (n + 2 ^ (8 * Z.of_nat i) * leValue (take count (drop i buf))).
Proof.
  induction count as [|count IH]; intros i n Hn Hlen.
  - rewrite take_0. cbn [readU64LE_from leValue]. f_equal. lia.
  - cbn [readU64LE_from].
    destruct (buf !! i) as [b|] eqn:Eb; [|apply lookup_ge_None in Eb; lia].
    rewrite (drop_S _ _ _ Eb). cbn [take leValue].
    pose proof (byte_range b) as Hb.
    assert (Hpow : 2 ^ (8 * Z.of_nat (S i)) = 256 * 2 ^ (8 * Z.of_nat i)).
    { replace (8 * Z.of_nat (S i)) with (8 + 8 * Z.of_nat i) by lia.
      rewrite Z.pow_add_r by lia. reflexivity. }
    rewrite lor_above by lia.
    rewrite IH; [|rewrite Hpow; nia|lia].
    f_equal. rewrite Hpow. ring.
Qed.

Lemma readU64LE_from_short (buf : list Byte.byte) (count : nat) : forall (i : nat) (n : Z),
  (0 < count)%nat -> (length buf < i + count)%nat ->
  readU64LE_from buf i count n = None.
Proof.
  induction count as [|count IH]; intros i n Hpos Hlen; [lia|].
  cbn [readU64LE_from].
  destruct (buf !! i) as [b|] eqn:Eb; [|done].
  apply lookup_lt_Some in Eb. apply IH; lia.
Qed.

Lemma readU64LE_value (buf : list Byte.byte) :
  (8 <= length buf)%nat -> readU64LE buf = Some (leValue (take 8 buf)).
Proof.
  intros Hl. unfold readU64LE.
  rewrite (readU64LE_from_value buf 8 0 0) by (cbn; lia).
  rewrite drop_0. f_equal. cbn [Z.of_nat]. lia.
Qed.

Lemma readU64LE_short (buf : list Byte.byte) :
  (length buf < 8)%nat -> readU64LE buf = None.
Proof. intros Hshort. apply readU64LE_from_short; lia. Qed.

(** X13.  [readU64LE] reads the first eight bytes as an unsigned
    little-endian number, [b0 + 256 b1 + ... + 256^7 b7], which is below
    2^64; bytes after the eighth do not matter; on a buffer of fewer than
    eight bytes it throws. *)
Theorem readU64LE_little_endian (buf : list Byte.byte) :
  ((8 <= length buf)%nat ->
     readU64LE buf = Some (leValue (take 8 buf)) /\
     0 <= leValue (take 8 buf) < 2 ^ 64 /\
     forall more, readU64LE (take 8 buf ++ more) = readU64LE buf) /\
  ((length buf < 8)%nat -> readU64LE buf = None).
Proof.
  pose proof readU64LE_value as Hval.
  split.
  - intros Hlen. split; [by apply Hval|]. split.
    + pose proof (leValue_range (take 8 buf)) as H.
      rewrite length_take, Nat.min_l in H by lia. exact H.
    + intros more. rewrite !Hval; [|done|rewrite length_app, length_take; lia].
      by rewrite take_app_le, take_take by (rewrite length_take; lia).
  - apply readU64LE_short.
Qed.

Lemma readU64LE_little_endian_witness :
  readU64LE (amount Byte.x00 Byte.x01) = Some 65536 /\
  readU64LE [Byte.x01; Byte.x02] = None.
Proof.
  destruct (readU64LE_little_endian (amount Byte.x00 Byte.x01)) as [Hok _].
  destruct (readU64LE_little_endian [Byte.x01; Byte.x02]) as [_ Hshort].
  split.
  - destruct Hok as (-> & _); [cbn; lia|]. reflexivity.
  - apply Hshort. cbn. lia.
Defined.

Lemma countHolders_value (accounts : list (list Byte.byte)) :
  Forall (fun data => (8 <= length data)%nat) accounts ->
  forall holders zero,
    countHolders accounts holders zero
      = Some ((holders + length (filter (fun data => (0 < leValue (take 8 data))%Z) accounts))%nat,
              (zero + length (filter (fun data => leValue (take 8 data) = 0%Z) accounts))%nat).
Proof.
  induction 1 as [|data accounts Hd _ IH]; intros holders zero.
  - cbn. by rewrite !Nat.add_0_r.
  - cbn [countHolders].
    rewrite (readU64LE_value data Hd).
    pose proof (leValue_range (take 8 data)) as Hrange.
    rewrite !filter_cons.
    destruct (0 <? leValue (take 8 data)) eqn:E.
    + apply Z.ltb_lt in E. rewrite IH.
      destruct (decide (0 < leValue (take 8 data))); [|lia].
      destruct (decide (leValue (take 8 data) = 0)); [lia|].
      cbn [length]. do 2 f_equal. lia.
    + apply Z.ltb_ge in E. rewrite IH.
      destruct (decide (0 < leValue (take 8 data))); [lia|].
      destruct (decide (leValue (take 8 data) = 0)); [|lia].
      cbn [length]. do 2 f_equal. lia.
Qed.

Lemma countHolders_short (accounts : list (list Byte.byte)) :
  Exists (fun data => (length data < 8)%nat) accounts ->
  forall holders zero, countHolders accounts holders zero = None.
Proof.
  induction 1 as [data accounts Hd|data accounts _ IH]; intros holders zero;
    cbn [countHolders].
  - by rewrite (readU64LE_short data Hd).
  - destruct (readU64LE data) as [amt|]; [|done]. by destruct (0 <? amt).
Qed.

(** X14.  The counting loop sorts every scanned account into exactly one
    of two counts: [holders] is the number of accounts whose balance field
    is nonzero, the other count the number whose balance is zero, and
    together they are all the accounts.  One account with a data slice
    shorter than eight bytes makes the whole count fail. *)
Theorem countHolders_counts (accounts : list (list Byte.byte)) :
  (Forall (fun data => (8 <= length data)%nat) accounts ->
   exists holders zero,
     countHolders accounts 0 0 = Some (holders, zero) /\
     holders = length (filter (fun data => 0 < leValue (take 8 data)) accounts) /\
     zero = length (filter (fun data => leValue (take 8 data) = 0) accounts) /\
     (holders + zero = length accounts)%nat) /\
  (Exists (fun data => (length data < 8)%nat) accounts ->
   countHolders accounts 0 0 = None).
Proof.
  split; [|intros H; by apply countHolders_short].
  intros Hall. eexists _, _. split; [by apply countHolders_value|].
  cbn [Nat.add]. split; [done|]. split; [done|].
  destruct (countHolders_total accounts Hall 0%nat 0%nat) as (h & z & Hc & Hsum).
  rewrite (countHolders_value _ Hall) in Hc. injection Hc as <- <-. lia.
Qed.

Lemma countHolders_counts_witness :
  countHolders [amount Byte.x01 Byte.x00; amount Byte.x00 Byte.x00;
                amount Byte.x00 Byte.x01] 0 0 = Some (2%nat, 1%nat) /\
  countHolders [amount Byte.x01 Byte.x00; [Byte.x01]] 0 0 = None.
Proof.
  destruct (countHolders_counts [amount Byte.x01 Byte.x00; amount Byte.x00 Byte.x00;
                                 amount Byte.x00 Byte.x01]) as [Hok _].
  destruct (countHolders_counts [amount Byte.x01 Byte.x00; [Byte.x01]]) as [_ Hbad].
  split.
  - destruct Hok as (h & z & -> & -> & -> & _); [repeat constructor; cbn; lia|].
    vm_compute. reflexivity.
  - apply Hbad. right. left. cbn. lia.
Defined.

End ReadU64.

Section HoldersFailures.
Import Holders HoldersSamples HoldersRoute.

Lemma holders_call_failed rpc now cache mintStr f cache' tr :
  getToken2022HoldersCached rpc now cache mintStr = (inl f, cache', tr) ->
  cache' = cache.
Proof.
  unfold getToken2022HoldersCached.
  destruct (cacheHit now cache mintStr); [done|].
  destruct (negb (isPublicKey rpc mintStr)); [by intros [= _ <- _]|].
  destruct (getAccountInfo rpc mintStr) as [[]|];
    [|by intros [= _ <- _]|by intros [= _ <- _]].
  destruct (getProgramAccounts rpc mintStr) as [accounts|]; [|by intros [= _ <- _]].
  destruct (countHolders accounts 0 0) as [[h z]|]; [done|by intros [= _ <- _]].
Qed.

(** X15.  How the aggregator fails.  On a cache miss, a mint that is no
    public key makes the call fail before any RPC call; a rejected
    [getAccountInfo] or a mint whose account is not found makes it fail
    after that one call, the account scan is not started; a rejected scan
    or a data slice shorter than eight bytes makes it fail after both
    calls.  Every failure leaves the cache as it was, and there is no
    failure on a cache hit. *)
Theorem holders_failure_keeps_cache rpc now cache mintStr :
  let call := getToken2022HoldersCached rpc now cache mintStr in
  let info := [CallGetAccountInfo mintStr] in
  let scan := [CallGetAccountInfo mintStr; CallGetProgramAccounts mintStr] in
  (cacheHit now cache mintStr = false ->
     (isPublicKey rpc mintStr = false -> call = (inl InvalidPublicKey, cache, [])) /\
     (isPublicKey rpc mintStr = true -> getAccountInfo rpc mintStr = None ->
        call = (inl RpcFailure, cache, info)) /\
     (isPublicKey rpc mintStr = true -> getAccountInfo rpc mintStr = Some false ->
        call = (inl MintNotFound, cache, info)) /\
     (isPublicKey rpc mintStr = true -> getAccountInfo rpc mintStr = Some true ->
      getProgramAccounts rpc mintStr = None ->
        call = (inl RpcFailure, cache, scan)) /\
     (forall accounts,
        isPublicKey rpc mintStr = true -> getAccountInfo rpc mintStr = Some true ->
        getProgramAccounts rpc mintStr = Some accounts ->
        Exists (fun data => (length data < 8)%nat) accounts ->
        call = (inl BadAccountData, cache, scan))) /\
  (forall f cache' tr,
     call = (inl f, cache', tr) ->
     cache' = cache /\
     cacheHit now cache mintStr = false /\
     match f with
     | InvalidPublicKey => tr = [] /\ isPublicKey rpc mintStr = false
     | MintNotFound => tr = info /\ getAccountInfo rpc mintStr = Some false
     | RpcFailure =>
         (tr = info /\ getAccountInfo rpc mintStr = None) \/
         (tr = scan /\ getProgramAccounts rpc mintStr = None)
     | BadAccountData =>
         tr = scan /\
         exists accounts, getProgramAccounts rpc mintStr = Some accounts /\
                          countHolders accounts 0 0 = None
     end).
Proof.
  cbn zeta. split.
  - intros Hmiss. unfold getToken2022HoldersCached. rewrite Hmiss.
    split; [by intros ->|]. split; [by intros -> ->|]. split; [by intros -> ->|].
    split; [by intros -> -> ->|].
    intros accounts -> -> -> Hshort. cbn.
    by rewrite (countHolders_short accounts Hshort).
  - intros f cache' tr. unfold getToken2022HoldersCached.
    destruct (cacheHit now cache mintStr); [done|].
    destruct (isPublicKey rpc mintStr) eqn:Epk; cbn [negb];
      [|by intros [= <- <- <-]].
    destruct (getAccountInfo rpc mintStr) as [[]|] eqn:Einfo;
      [|by intros [= <- <- <-]|intros [= <- <- <-]; repeat split; by left].
    destruct (getProgramAccounts rpc mintStr) as [accounts|] eqn:Eacc;
      [|intros [= <- <- <-]; repeat split; by right].
    destruct (countHolders accounts 0 0) as [[h z]|] eqn:Ecount; [done|].
    intros [= <- <- <-]. repeat split. by exists accounts.
Qed.

Lemma holders_failure_keeps_cache_witness :
  let gone := {| isPublicKey := fun _ => true; getAccountInfo := fun _ => Some false;
                 getProgramAccounts := fun _ => None |} in
  let garbled := {| isPublicKey := fun _ => true; getAccountInfo := fun _ => Some true;
                    getProgramAccounts := fun _ => Some [[Byte.x01]] |} in
  let p := {| mint := Some pepe; holders := 2; totalTokenAccounts := 3;
              zeroBalanceAccounts := 1; updatedAt := 1000000 |} in
  getToken2022HoldersCached gone 1000001 p other
    = (inl MintNotFound, p, [CallGetAccountInfo other]) /\
  getToken2022HoldersCached garbled 1000001 p other
    = (inl BadAccountData, p,
       [CallGetAccountInfo other; CallGetProgramAccounts other]).
Proof.
  intros gone garbled p.
  pose proof (holders_failure_keeps_cache gone 1000001 p other) as H1.
  pose proof (holders_failure_keeps_cache garbled 1000001 p other) as H2.
  cbn zeta in H1, H2.
  destruct H1 as [H1 _]. destruct H2 as [H2 _].
  destruct (H1 eq_refl) as (_ & _ & Hgone & _).
  destruct (H2 eq_refl) as (_ & _ & _ & _ & Hbad).
  split.
  - apply Hgone; reflexivity.
  - apply (Hbad [[Byte.x01]]); try reflexivity. left. cbn. lia.
Defined.

Lemma holders_miss_updatedAt rpc now cache mintStr p cache' tr :
  cacheHit now cache mintStr = false ->
  getToken2022HoldersCached rpc now cache mintStr = (inr p, cache', tr) ->
  updatedAt p = now.
Proof.
  unfold getToken2022HoldersCached. intros ->.
  destruct (negb (isPublicKey rpc mintStr)); [done|].
  destruct (getAccountInfo rpc mintStr) as [[]|]; [|done|done].
  destruct (getProgramAccounts rpc mintStr) as [accounts|]; [|done].
  destruct (countHolders accounts 0 0) as [[h z]|]; [|done].
  intros Heq. injection Heq as <- _ _. reflexivity.
Qed.

(** X16.  The [/api/holders] route asks for the PEPE mint when the query
    has no (or an empty) [mint]; its [cached] flag only says that the
    payload is younger than the TTL when the response is built, so a
    payload that was just recomputed is reported as cached as well; a
    failure of the aggregator becomes the failure response and leaves the
    cache as it was. *)
Theorem holders_route_response rpc now later cache q :
  mintParam None = Inferrer.PEPE_MINT /\
  mintParam (Some "") = Inferrer.PEPE_MINT /\
  (forall data cache' tr,
     getToken2022HoldersCached rpc now cache (mintParam q) = (inr data, cache', tr) ->
     handle rpc now later cache q
       = (Success (mintParam q) (holders data) (totalTokenAccounts data)
            (zeroBalanceAccounts data)
            (later - updatedAt data <? HOLDERS_CACHE_TTL_MS) (updatedAt data), data) /\
     (cacheHit now cache (mintParam q) = false ->
      later - now < HOLDERS_CACHE_TTL_MS ->
      (later - updatedAt data <? HOLDERS_CACHE_TTL_MS) = true)) /\
  (forall f cache' tr,
     getToken2022HoldersCached rpc now cache (mintParam q) = (inl f, cache', tr) ->
     handle rpc now later cache q = (Failure500 f, cache)).
Proof.
  split; [done|]. split; [done|]. split.
  - intros data cache' tr H. unfold handle. rewrite H.
    destruct (holders_call_ok _ _ _ _ _ _ _ H) as [-> _].
    split; [done|]. intros Hmiss Hlt.
    rewrite (holders_miss_updatedAt _ _ _ _ _ _ _ Hmiss H). by apply Z.ltb_lt.
  - intros f cache' tr H. unfold handle. rewrite H.
    by rewrite (holders_call_failed _ _ _ _ _ _ _ H).
Qed.

Lemma holders_route_response_witness :
  (handle threeAccounts 1000000 1000050 initialCache None).1
    = Success Inferrer.PEPE_MINT 2 3 1 true 1000000.
Proof.
  destruct (holders_route_response threeAccounts 1000000 1000050 initialCache None)
    as (_ & _ & Hok & _).
  destruct (getToken2022HoldersCached threeAccounts 1000000 initialCache (mintParam None))
    as [[[f|data] c] tr] eqn:E; [vm_compute in E; discriminate E|].
  destruct (Hok data c tr eq_refl) as [-> Hflag].
  cbn [fst]. rewrite Hflag; [|reflexivity|reflexivity].
  vm_compute in E. injection E as <- _ _. reflexivity.
Defined.

End HoldersFailures.

(* ===================================================================== *)
(** ** Trade ids over the backfill and the live listener *)
(* ===================================================================== *)

Section TradeIds.
Import JSNum Inferrer Backfill BackfillSamples Hub Live.

(** A returned trade carries the counter as its id and the counter is
    incremented; without a trade the counter stays. *)
Lemma parseSwap_counter now ctr tx r ctr' :
  parseSwapFromTransaction now ctr tx = (r, ctr') ->
  match r with
  | Some t => id t = ctr /\ ctr' = increment ctr
  | None => ctr' = ctr
  end.
Proof.
  destruct r as [t|].
  - intros H. apply parseSwap_Some in H
      as (_ & _ & _ & _ & _ & _ & _ & _ & _ & _ & _ & _ & Hid & Hc).
    by split.
  - destruct tx as [tx0|]; [|by intros [= <-]].
    destruct (meta tx0) as [m|] eqn:Hm; [|by cbn; rewrite Hm; intros [= <-]].
    rewrite (parseSwap_unfold _ _ _ _ Hm).
    destruct (eqb (pepeChangeOf tx0 m) zero); [by intros [= <-]|].
    destruct (eqb (xntChangeOf tx0 m) zero); [by intros [= <-]|].
    destruct (classify _ _); [done|by intros [= <-]].
Qed.

Lemma loopBody_ids (ctr : Z) (st : LoopState) (f : Fetched) :
  0 <= ctr ->
  map id (parsedTrades st)
    = map (fun k => ctr + Z.of_nat k) (seq 0 (length (parsedTrades st))) ->
  Backfill.tradeIdCounter st = ctr + Z.of_nat (length (parsedTrades st)) ->
  Backfill.tradeIdCounter st < MAX_EXACT ->
  let st' := loopBody st f in
  map id (parsedTrades st')
    = map (fun k => ctr + Z.of_nat k) (seq 0 (length (parsedTrades st'))) /\
  Backfill.tradeIdCounter st' = ctr + Z.of_nat (length (parsedTrades st')) /\
  Backfill.tradeIdCounter st' <= Backfill.tradeIdCounter st + 1.
Proof.
  intros Hpos Hids Hctr Hmax. cbn zeta. unfold loopBody.
  destruct (fetched f) as [[tx|]|e];
    [|split; [done|split; [done|lia]]|split; [done|split; [done|lia]]].
  destruct (parseSwapFromTransaction _ _ _) as [[t|] c] eqn:E;
    apply parseSwap_counter in E; cbn.
  - destruct E as [Hid ->].
    rewrite increment_exact by (unfold MAX_EXACT in *; lia).
    rewrite length_app, map_app, Hids. cbn [length map].
    rewrite Nat.add_1_r, seq_S, map_app. cbn [map Nat.add].
    split; [by rewrite Hid, Hctr|]. split; lia.
  - subst c. split; [done|]. split; [done|lia].
Qed.

Lemma foldl_loopBody_ids (ctr : Z) (txs : list Fetched) : forall st : LoopState,
  0 <= ctr ->
  map id (parsedTrades st)
    = map (fun k => ctr + Z.of_nat k) (seq 0 (length (parsedTrades st))) ->
  Backfill.tradeIdCounter st = ctr + Z.of_nat (length (parsedTrades st)) ->
  Backfill.tradeIdCounter st + Z.of_nat (length txs) <= MAX_EXACT ->
  let st' := foldl loopBody st txs in
  map id (parsedTrades st')
    = map (fun k => ctr + Z.of_nat k) (seq 0 (length (parsedTrades st'))) /\
  Backfill.tradeIdCounter st' = ctr + Z.of_nat (length (parsedTrades st')).
Proof.
  induction txs as [|f txs IH]; intros st Hpos Hids Hctr Hmax; [done|].
  cbn [foldl]. cbn [length] in Hmax.
  destruct (loopBody_ids ctr st f Hpos Hids Hctr) as (H1 & H2 & H3); [lia|].
  apply IH; [done|done|done|lia].
Qed.

(** X17.  While the id counter stays within the exact range of a number
    (it ends at most at 2^53), the backfill numbers its trades
    consecutively: the trades kept, which are the trades the inferrer
    yields, carry the ids [c, c+1, c+2, ...] in the order kept, from the
    counter value [c] at the start; so no two share an id, and the counter
    ends at [c] plus the number of trades. *)
Theorem backfill_ids_consecutive (ctr : Z) (txs : list Fetched) :
  0 <= ctr ->
  ctr + Z.of_nat (length txs) <= MAX_EXACT ->
  let st := processSignatures ctr txs in
  parsedTrades st = BackfillSpec.inferred ctr txs /\
  map id (parsedTrades st)
    = map (fun k => ctr + Z.of_nat k) (seq 0 (length (parsedTrades st))) /\
  Backfill.tradeIdCounter st = ctr + Z.of_nat (length (parsedTrades st)) /\
  NoDup (map id (parsedTrades st)).
Proof.
  intros Hpos Hmax. cbn zeta.
  destruct (foldl_loopBody_ids ctr txs (start ctr)) as [Hids Hctr];
    [done | done | cbn; lia | done |].
  fold (processSignatures ctr txs) in Hids, Hctr.
  split; [unfold processSignatures; by rewrite foldl_loopBody_inferred|].
  split; [exact Hids|]. split; [exact Hctr|].
  rewrite Hids. apply NoDup_fmap_2; [|apply NoDup_seq].
  intros x y Hxy. lia.
Qed.

Lemma backfill_ids_consecutive_witness :
  map id (parsedTrades (processSignatures 10
            [fetchedTx Samples.buyTx; fetchedTx Samples.noPepeTx;
             fetchedTx Samples.buyTx; fetchedTx Samples.lpRemoveTx]))
    = [10; 11; 12].
Proof.
  pose proof (backfill_ids_consecutive 10
            [fetchedTx Samples.buyTx; fetchedTx Samples.noPepeTx;
             fetchedTx Samples.buyTx; fetchedTx Samples.lpRemoveTx]) as H.
  cbn zeta in H. destruct H as (_ & Hids & _); [lia | by vm_compute |].
  rewrite Hids. vm_compute. reflexivity.
Defined.

(** At 2^53 the counter is stuck and the ids repeat. *)
Lemma backfill_ids_stuck_sample :
  map id (parsedTrades (processSignatures MAX_EXACT
            [fetchedTx Samples.buyTx; fetchedTx Samples.buyTx]))
    = [MAX_EXACT; MAX_EXACT].
Proof. vm_compute. reflexivity. Qed.

(** What one notification does. *)
Lemma onLogs_cases (sv : Server) (f : Fetched) :
  match fetched f with
  | Retry.Rejected _ | Retry.Resolved None => onLogs sv f = (sv, [])
  | Retry.Resolved (Some tx) =>
      match parseSwapFromTransaction (nowAt f) (Live.tradeIdCounter sv) (Some tx) with
      | (None, _) => onLogs sv f = (sv, [])
      | (Some trade, counter) =>
          id trade = Live.tradeIdCounter sv /\
          counter = increment (Live.tradeIdCounter sv) /\
          onLogs sv f
            = ({| hub := {| clients := clients (hub sv);
                            tradeHistory :=
                              take CAPACITY (trade :: tradeHistory (hub sv)) |};
                  Live.tradeIdCounter := counter |},
               map (fun client => (client, EvTrade trade)) (clients (hub sv)))
      end
  end.
Proof.
  unfold onLogs.
  destruct (fetched f) as [[tx|]|e]; [|done|done].
  destruct (parseSwapFromTransaction _ _ _) as [[t|] c] eqn:E;
    pose proof (parseSwap_counter _ _ _ _ _ E) as Hc; cbn in Hc.
  - destruct Hc as [Hid ->]. split; [done|]. split; [done|].
    cbn. by rewrite pushHistory_take.
  - subst c. by destruct sv.
Qed.

(** X18.  One notification of the live listener either changes nothing
    and writes nothing, namely when the fetch failed, the transaction is
    null or the inferrer yields no trade for it, or it publishes the one
    trade the inferrer yields: every registered client is written that
    trade once, in registration order, the history gets it at the front
    (cut at 8000), the clients stay as they are, the trade's id is the
    former counter and the counter is incremented (by exactly one as long
    as it is below 2^53). *)
Theorem onLogs_all_or_nothing (sv : Server) (f : Fetched) :
  match fetched f with
  | Retry.Rejected _ | Retry.Resolved None => onLogs sv f = (sv, [])
  | Retry.Resolved (Some tx) =>
      match parseSwapFromTransaction (nowAt f) (Live.tradeIdCounter sv) (Some tx) with
      | (None, _) => onLogs sv f = (sv, [])
      | (Some trade, counter) =>
          snd (onLogs sv f)
            = map (fun client => (client, EvTrade trade)) (clients (hub sv)) /\
          tradeHistory (hub (fst (onLogs sv f)))
            = take CAPACITY (trade :: tradeHistory (hub sv)) /\
          clients (hub (fst (onLogs sv f))) = clients (hub sv) /\
          id trade = Live.tradeIdCounter sv /\
          Live.tradeIdCounter (fst (onLogs sv f)) = increment (Live.tradeIdCounter sv) /\
          (- MAX_EXACT <= Live.tradeIdCounter sv < MAX_EXACT ->
           Live.tradeIdCounter (fst (onLogs sv f)) = Live.tradeIdCounter sv + 1)
      end
  end.
Proof.
  pose proof (onLogs_cases sv f) as H.
  destruct (fetched f) as [[tx|]|e]; [|done|done].
  destruct (parseSwapFromTransaction _ _ _) as [[trade|] counter]; [|done].
  destruct H as (Hid & -> & ->). cbn.
  split; [done|]. split; [done|]. split; [done|]. split; [done|]. split; [done|].
  apply increment_exact.
Qed.

Lemma onLogs_all_or_nothing_witness :
  let sv := {| hub := {| clients := [7%nat; 8%nat]; tradeHistory := [] |};
               Live.tradeIdCounter := 5 |} in
  map fst (snd (onLogs sv (fetchedTx Samples.buyTx))) = [7%nat; 8%nat] /\
  Live.tradeIdCounter (fst (onLogs sv (fetchedTx Samples.buyTx))) = 6 /\
  onLogs sv (fetchedTx Samples.noPepeTx) = (sv, []).
Proof.
  intros sv.
  pose proof (onLogs_all_or_nothing sv (fetchedTx Samples.buyTx)) as Hbuy.
  pose proof (onLogs_all_or_nothing sv (fetchedTx Samples.noPepeTx)) as Hquiet.
  cbn [fetched fetchedTx nowAt] in Hbuy, Hquiet.
  destruct (parseSwapFromTransaction zero (Live.tradeIdCounter sv) (Some Samples.buyTx))
    as [[t|] c] eqn:E; [|vm_compute in E; discriminate E].
  destruct Hbuy as (Hw & _ & _ & _ & _ & Hc).
  split; [|split].
  - rewrite Hw. reflexivity.
  - rewrite Hc; [reflexivity|]. by vm_compute.
  - destruct (parseSwapFromTransaction zero (Live.tradeIdCounter sv)
                (Some Samples.noPepeTx)) as [[t'|] c'] eqn:E';
      [vm_compute in E'; discriminate E'|].
    exact Hquiet.
Defined.

Lemma onLogs_idsFresh (sv : Server) (f : Fetched) :
  0 <= Live.tradeIdCounter sv < MAX_EXACT ->
  idsFresh sv ->
  idsFresh (fst (onLogs sv f)) /\
  Live.tradeIdCounter sv <= Live.tradeIdCounter (fst (onLogs sv f))
    <= Live.tradeIdCounter sv + 1.
Proof.
  intros Hrange [Hnd Hlt]. pose proof (onLogs_cases sv f) as H.
  destruct (fetched f) as [[tx|]|e];
    [|rewrite H; cbn [fst]; split; [by split|lia]
     |rewrite H; cbn [fst]; split; [by split|lia]].
  destruct (parseSwapFromTransaction _ _ _) as [[trade|] counter];
    [|rewrite H; cbn [fst]; split; [by split|lia]].
  destruct H as (Hid & -> & ->).
  rewrite increment_exact by (unfold MAX_EXACT in *; lia).
  split; [|cbn; lia]. unfold idsFresh. cbn.
  assert (Hnd' : NoDup (map id (trade :: tradeHistory (hub sv)))).
  { cbn [map]. apply NoDup_cons. split; [|done].
    intros Hin. apply list_elem_of_fmap in Hin as (t & Ht & Hin).
    rewrite Forall_forall in Hlt. specialize (Hlt t Hin). lia. }
  assert (Hlt' : Forall (fun t => id t < Live.tradeIdCounter sv + 1)
                   (trade :: tradeHistory (hub sv))).
  { apply Forall_cons. split; [lia|].
    eapply Forall_impl; [exact Hlt|]. cbn. intros; lia. }
  split.
  - rewrite <- (take_drop CAPACITY (trade :: tradeHistory (hub sv))) in Hnd'.
    rewrite map_app in Hnd'. by apply NoDup_app in Hnd' as [? _].
  - by apply Forall_take.
Qed.

(** The listener advances the counter once per trade the inferrer
    yields over the notifications. *)
Lemma listen_counter (fs : list Fetched) : forall sv : Server,
  0 <= Live.tradeIdCounter sv ->
  Live.tradeIdCounter sv + Z.of_nat (length fs) <= MAX_EXACT ->
  Live.tradeIdCounter (listen sv fs)
    = Live.tradeIdCounter sv
      + Z.of_nat (length (BackfillSpec.inferred (Live.tradeIdCounter sv) fs)).
Proof.
  induction fs as [|f fs IH]; intros sv Hpos Hmax; [cbn; lia|].
  cbn [listen foldl BackfillSpec.inferred]. cbn [length] in Hmax.
  fold (listen (fst (onLogs sv f)) fs).
  pose proof (onLogs_cases sv f) as H.
  destruct (fetched f) as [[tx|]|e];
    [|rewrite H; cbn [fst]; apply IH; lia|rewrite H; cbn [fst]; apply IH; lia].
  destruct (parseSwapFromTransaction _ _ _) as [[trade|] counter] eqn:E;
    pose proof (parseSwap_counter _ _ _ _ _ E) as Hc; cbn in Hc.
  - destruct H as (_ & Hinc & ->). cbn [fst].
    rewrite Hinc, increment_exact in * by (unfold MAX_EXACT in *; lia).
    rewrite IH; cbn [Live.tradeIdCounter length]; lia.
  - subst counter. rewrite H. cbn [fst]. apply IH; lia.
Qed.

(** X19.  Ids stay unique under the live listener while the counter
    stays within the exact range of a number: if the ids in the history
    are pairwise distinct and below the counter (as they are for the empty
    history), and the counter plus the number of notifications does not
    exceed 2^53, they are so after these notifications, and the counter
    has advanced by the number of trades the inferrer yielded. *)
Theorem listen_keeps_ids_unique (fs : list Fetched) (sv : Server) :
  idsFresh sv ->
  0 <= Live.tradeIdCounter sv ->
  Live.tradeIdCounter sv + Z.of_nat (length fs) <= MAX_EXACT ->
  idsFresh (listen sv fs) /\
  NoDup (map id (tradeHistory (hub (listen sv fs)))) /\
  Live.tradeIdCounter (listen sv fs)
    = Live.tradeIdCounter sv
      + Z.of_nat (length (BackfillSpec.inferred (Live.tradeIdCounter sv) fs)).
Proof.
  intros H Hpos Hmax.
  assert (Hfresh : idsFresh (listen sv fs)).
  { revert sv H Hpos Hmax. induction fs as [|f fs IH]; intros sv H Hpos Hmax; [done|].
    cbn [listen foldl]. cbn [length] in Hmax.
    destruct (onLogs_idsFresh sv f) as [Hfresh Hctr]; [lia|done|].
    apply IH; [done|lia|lia]. }
  split; [exact Hfresh|]. split; [by destruct Hfresh|].
  by apply listen_counter.
Qed.

Lemma listen_keeps_ids_unique_witness :
  let sv := {| hub := initial; Live.tradeIdCounter := 1 |} in
  let fs := [fetchedTx Samples.buyTx; fetchedTx Samples.noPepeTx;
             fetchedTx Samples.buyTx] in
  map id (tradeHistory (hub (listen sv fs))) = [2; 1] /\
  Live.tradeIdCounter (listen sv fs) = 3.
Proof.
  intros sv fs.
  destruct (listen_keeps_ids_unique fs sv) as (_ & Hnd & Hctr).
  - split; [constructor|constructor].
  - cbn. lia.
  - by vm_compute.
  - split; [vm_compute; reflexivity|]. rewrite Hctr. vm_compute. reflexivity.
Defined.

(** At 2^53 the listener gives two trades the same id. *)
Lemma listen_ids_stuck_sample :
  map id (tradeHistory (hub (listen {| hub := initial; Live.tradeIdCounter := MAX_EXACT |}
                                    [fetchedTx Samples.buyTx; fetchedTx Samples.buyTx])))
    = [MAX_EXACT; MAX_EXACT].
Proof. vm_compute. reflexivity. Qed.

End TradeIds.

(* ===================================================================== *)
(** ** Properties of the signature paging loop *)
(* ===================================================================== *)

Section PagingFacts.
Import Paging PagingSpec PagingSamples.

Variable rpc : nat -> Request -> Retry.Outcome (option (list string)).
Variable totalLimit : Z.




Lemma pageLoop_bounded (fuel : nat) : forall st st' : LoopState,
  obedient rpc ->
  Z.of_nat (length (signatures st)) <= Z.max 0 totalLimit ->
  pageLoop rpc totalLimit fuel st = Some (inr st') ->
  Z.of_nat (length (signatures st')) <= Z.max 0 totalLimit.
Proof.
  induction fuel as [|fuel IH]; intros st st' Hob Hlen; [done|].
  cbn [pageLoop].
  destruct (Z.of_nat (length (signatures st)) <? totalLimit) eqn:Elt;
    [|by intros [= <-]].
  apply Z.ltb_lt in Elt.
  destruct (rpc _ _) as [[page|]|e] eqn:Erpc; [|by intros [= <-]|done].
  apply Hob in Erpc. cbn [limit] in Erpc.
  destruct (last page) as [lastSig|]; [|by intros [= <-]].
  assert (Hnew : Z.of_nat (length (signatures st ++ page)) <= Z.max 0 totalLimit)
    by (rewrite length_app; lia).
  destruct (Z.of_nat (length page) <? _); [by intros [= <-]|].
  by apply IH.
Qed.

End PagingFacts.

Section PagingClaims.
Import Paging PagingSpec PagingSamples.



(** X21.  If the node never returns more signatures than a request asks
    for, the loop never collects more than the target. *)
Theorem paging_respects_target (rpc : nat -> Request -> Retry.Outcome (option (list string)))
    (totalLimit : Z) (st : LoopState) :
  obedient rpc ->
  collectSignatures rpc totalLimit = Some (inr st) ->
  Z.of_nat (length (signatures st)) <= Z.max 0 totalLimit.
Proof.
  intros Hob H.
  apply (pageLoop_bounded rpc totalLimit (S (Z.to_nat totalLimit)) start st Hob);
    [cbn; lia | exact H].
Qed.

Lemma node_obedient : obedient node.
Proof.
  intros k req page. unfold node.
  destruct (limit req <? 0) eqn:E; [done|]. apply Z.ltb_ge in E.
  destruct k as [|[|k]]; intros [= <-];
    rewrite ?repeat_length; cbn [length]; lia.
Qed.

Lemma paging_respects_target_witness :
  exists st,
    collectSignatures node 3000 = Some (inr st) /\
    Z.of_nat (length (signatures st)) = 1500 /\
    map limit (requests st) = [1000; 1000] /\
    map before (requests st) = [None; Some "sigA"].
Proof.
  destruct (collectSignatures node 3000) as [[e|st]|] eqn:E;
    [vm_compute in E; discriminate E| |vm_compute in E; discriminate E].
  exists st. split; [reflexivity|].
  pose proof (paging_respects_target node 3000 st node_obedient E) as Hle.
  vm_compute in E. injection E as <-. split; [|split]; vm_compute; reflexivity.
Defined.

End PagingClaims.
